(** * globalClipboard: the expiring-item store of [server.js]

    A shallow embedding of the request handlers and of the cleanup job of
    [server.js], and the properties of the item store proved about them.

    Modelling conventions.
    - The SQLite table [uploads] is a list of rows in insertion order; [id]
      is its primary key, so an insert of an id already present fails.
    - Times ([Date.now()], [expiry], [created_at]) are integers in
      milliseconds.  The values involved stay far below 2^53, where the
      arithmetic of JavaScript numbers is exact.
    - A JavaScript string is a [string], one character per code unit; code
      units above 255 are not represented.
    - The handlers are given twice.  First for the requests whose body was
      parsed and whose fields, query parameter and cookie are strings or
      [undefined] ([Request], [upload_handler], [serve]), in the world that
      multer leaves.  Then for every request, with a body that may be
      [undefined], values that are not strings, and the blob that multer
      writes before the authentication ([RawRequest], [upload_handler_val],
      [route]); [upload_handler_val_of_request] and [route_of_request] relate
      the two.
    - [uuidv4()] and [Date.now()] are inputs of the handlers.
    - Callbacks are run in the order in which the calls are issued; driver
      failures of SQLite other than the primary-key conflict are outside the
      model. *)

From Stdlib Require Import ZArith String Ascii List Lia.
From Stdlib Require Import Decimal DecimalFacts DecimalPos DecimalString.
From stdpp Require Import base decidable option list sorting gmap strings.

Local Open Scope string_scope.
Local Open Scope list_scope.
Local Open Scope Z_scope.

(** ** JavaScript fragments *)

Module Js.

(** Truthiness of a string-or-undefined value: [undefined] and the empty
    string are falsy. *)
Definition truthy (v : option string) : bool :=
  match v with
  | Some s => negb (bool_decide (s = ""))
  | None => false
  end.

(** [a || b] on string-or-undefined values. *)
Definition or (a b : option string) : option string :=
  if truthy a then a else b.

(** [a || d] where [d] is a string literal: the result is a string. *)
Definition or_str (a : option string) (d : string) : string :=
  match a with
  | Some s => if bool_decide (s = "") then d else s
  | None => d
  end.

(** [s.substring(0, n)]. *)
Definition substring0 (n : nat) (s : string) : string := String.substring 0 n s.

(** White space skipped by [parseInt] (the code units below 256). *)
Definition is_space (c : ascii) : bool :=
  let n := N_of_ascii c in
  ((9 <=? n) && (n <=? 13) || (n =? 32) || (n =? 160))%N.

Fixpoint skip_space (s : string) : string :=
  match s with
  | String c r => if is_space c then skip_space r else s
  | EmptyString => s
  end.

(** Value of a digit in radix [r], if it is one. *)
Definition digit_val (r : Z) (c : ascii) : option Z :=
  let n := Z.of_N (N_of_ascii c) in
  let v :=
    if (48 <=? n) && (n <=? 57) then Some (n - 48)
    else if (97 <=? n) && (n <=? 122) then Some (n - 87)
    else if (65 <=? n) && (n <=? 90) then Some (n - 55)
    else None in
  match v with
  | Some d => if d <? r then Some d else None
  | None => None
  end.

(** The longest prefix of radix-[r] digits, read left to right; [seen] tells
    whether a digit was read. *)
Fixpoint digits (r : Z) (acc : Z) (seen : bool) (s : string) : option Z :=
  match s with
  | String c rest =>
      match digit_val r c with
      | Some d => digits r (acc * r + d) true rest
      | None => if seen then Some acc else None
      end
  | EmptyString => if seen then Some acc else None
  end.

(** The sign in front of the number, and what follows it. *)
Definition sign_and_rest (s : string) : Z * string :=
  match s with
  | String "-" r => (-1, r)
  | String "+" r => (1, r)
  | _ => (1, s)
  end.

(** The radix: 16 after a prefix [0x] or [0X], which is dropped, else 10. *)
Definition radix_and_rest (s : string) : Z * string :=
  match s with
  | String "0" (String "x" r) => (16, r)
  | String "0" (String "X" r) => (16, r)
  | _ => (10, s)
  end.

(** [parseInt(s)] with no radix; [None] is [NaN].  [-0] is [0] here: both are
    falsy and both compare below 1.  The result is the exact integer; the
    JavaScript number is its rounding once it has more than 15 digits, which
    lies on the same side of 1 and of 10080, the only bounds it is compared
    with. *)
Definition parseInt_string (s : string) : option Z :=
  let '(sign, s2) := sign_and_rest (skip_space s) in
  let '(radix, s3) := radix_and_rest s2 in
  match digits radix 0 false s3 with
  | Some n => Some (sign * n)
  | None => None
  end.

(** [parseInt(v)] of a form field: [undefined] is first turned into the
    string ["undefined"], which has no digit. *)
Definition parseInt (v : option string) : option Z :=
  match v with
  | Some s => parseInt_string s
  | None => parseInt_string "undefined"
  end.

(** [n || d] on numbers: [NaN] and [0] are falsy. *)
Definition num_or (n : option Z) (d : Z) : Z :=
  match n with
  | Some 0 => d
  | Some k => k
  | None => d
  end.

End Js.

(** ** The table [uploads] *)

Inductive ItemType := file_type | text_type.

Definition type_name (t : ItemType) : string :=
  match t with file_type => "file" | text_type => "text" end.

Global Instance ItemType_eq_dec : EqDecision ItemType.
Proof. solve_decision. Defined.

Record Row := mkRow {
  id : string;
  type : ItemType;
  content : string;
  expiry : Z;
  created_at : Z;
  filename : option string;
  mime_type : option string;
  username : string
}.

Global Instance Row_eq_dec : EqDecision Row.
Proof. solve_decision. Defined.

Module Db.

(** [SELECT ... FROM uploads WHERE P] *)
Definition select (P : Row → Prop) `{∀ r, Decision (P r)} (t : list Row) : list Row :=
  filter P t.

(** [db.get("SELECT * FROM uploads WHERE id = ?")]: the first matching row. *)
Definition get (i : string) (t : list Row) : option Row :=
  head (select (λ r, id r = i) t).

(** [DELETE FROM uploads WHERE P]: the remaining table and [this.changes]. *)
Definition delete (P : Row → Prop) `{∀ r, Decision (P r)} (t : list Row)
  : list Row * nat :=
  (filter (λ r, ¬ P r) t, length (filter P t)).

(** [INSERT INTO uploads ... VALUES ...]: refused when the primary key is
    taken. *)
Definition insert (r : Row) (t : list Row) : option (list Row) :=
  match get (id r) t with
  | Some _ => None
  | None => Some (t ++ [r])
  end.

(** [ORDER BY created_at DESC] *)
Definition newer_first (a b : Row) : Prop := created_at b ≤ created_at a.

Global Instance newer_first_dec : RelDecision newer_first.
Proof. intros a b. unfold newer_first. apply _. Defined.

Definition order_by_created_at_desc (t : list Row) : list Row :=
  merge_sort newer_first t.

End Db.

(** ** Requests, responses and the world the server acts on *)

(** [req.file] as left by multer: the blob is already on disk at [path]. *)
Record UploadedFile := mkFile {
  path : string;
  originalname : string;
  mimetype : string
}.

(** A request whose body was parsed and whose fields, query parameter and
    cookie are strings or [undefined]; [RawRequest] below is the request in
    general. *)
Record Request := mkRequest {
  header_x_api_key : option string;    (* req.headers['x-api-key'] *)
  query_api_key : option string;       (* req.query.api_key *)
  cookie_auth_token : option string;   (* req.cookies.auth_token *)
  param_id : string;                   (* req.params.id *)
  body_text : option string;           (* req.body.text *)
  body_expiry : option string;         (* req.body.expiry *)
  body_username : option string;       (* req.body.username *)
  req_file : option UploadedFile       (* req.file *)
}.

Inductive JsValue := JsNull | JsString (s : string) | JsNumber (n : Z).

(** A JSON object: its fields in order. *)
Definition JsObject := list (string * JsValue).

Fixpoint field (k : string) (o : JsObject) : option JsValue :=
  match o with
  | (k', v) :: o' => if bool_decide (k' = k) then Some v else field k o'
  | [] => None
  end.

Inductive Body :=
  | JsonError (error : string)                     (* { error } *)
  | JsonMessage (message : string)                 (* { message } *)
  | JsonUploaded (i url : string) (expiryTime : Z) (* { id, url, expiry } *)
  | JsonRows (rows : list JsObject)                (* the rows of /api/list *)
  | JsonText (text : string)                       (* { text } *)
  | Download (blob : string) (name : option string) (* res.download(path, name) *)
  | ErrorPage.  (* the page of Express' default error handler *)

Record Response := mkResponse { status : Z; body : Body }.

(** The error classes behind the status codes. *)
Inductive Error := ValidationError | Unauthorized | NotFound | Expired | StoreError.

Definition error_of (r : Response) : option Error :=
  match status r with
  | 400 => Some ValidationError
  | 401 => Some Unauthorized
  | 404 => Some NotFound
  | 410 => Some Expired
  | 500 => Some StoreError
  | _ => None
  end.

(** The table and the blob directory. *)
Record World := mkWorld { uploads : list Row; disk : gset string }.

Inductive LogLine :=
  | FoundExpired (n : nat)            (* Found n expired items. *)
  | CleanupComplete (changes : nat).  (* Cleanup complete. Deleted n items. *)

(** What a handler did: the response, the world it leaves, the paths handed
    to [fs.unlink] in call order, and the console lines of the cleanup. *)
Record Result := mkResult {
  response : Response;
  world : World;
  unlinks : list string;
  console : list LogLine
}.

(** The whole row as an object ([SELECT *]) and the projection on columns. *)
Definition js_opt (v : option string) : JsValue :=
  match v with Some s => JsString s | None => JsNull end.

Definition row_object (r : Row) : JsObject :=
  [ ("id", JsString (id r));
    ("type", JsString (type_name (type r)));
    ("content", JsString (content r));
    ("expiry", JsNumber (expiry r));
    ("created_at", JsNumber (created_at r));
    ("filename", js_opt (filename r));
    ("mime_type", js_opt (mime_type r));
    ("username", JsString (username r)) ].

Definition project (cols : list string) (o : JsObject) : JsObject :=
  omap (λ c, (λ v, (c, v)) <$> field c o) cols.

Section Server.

(** [process.env.API_KEY] and [process.env.BASE_URL]. *)
Variable env_API_KEY : option string.
Variable env_BASE_URL : option string.

(** The paths on which [fs.unlink] fails with an error other than ENOENT. *)
Variable io_fault : string → bool.

Definition API_KEY : string := Js.or_str env_API_KEY "default-insecure-key".

(** [fs.unlink(p, cb)]: the callback only logs, and not for ENOENT. *)
Definition unlink (p : string) (d : gset string) : gset string :=
  if io_fault p then d else d ∖ {[ p ]}.

Definition unlink_all (ps : list string) (d : gset string) : gset string :=
  foldl (λ d p, unlink p d) d ps.

Definition reply (code : Z) (b : Body) (w : World) : Result :=
  mkResult (mkResponse code b) w [] [].

(** *** Cleanup *)

Definition performCleanup (now : Z) (w : World) : World * (list string * list LogLine) :=
  let rows := Db.select (λ r, expiry r < now) (uploads w) in
  if bool_decide (length rows = 0%nat) then (w, ([], []))
  else
    let blobs := content <$> filter (λ r, type r = file_type) rows in
    let '(t, changes) := Db.delete (λ r, expiry r < now) (uploads w) in
    (mkWorld t (unlink_all blobs (disk w)),
     (blobs, [FoundExpired (length rows); CleanupComplete changes])).

(** *** Authentication middleware *)

Definition authenticateParams (req : Request) : bool :=
  let providedKey :=
    Js.or (Js.or (header_x_api_key req) (query_api_key req)) (cookie_auth_token req) in
  Js.truthy providedKey && bool_decide (providedKey = Some API_KEY).

Definition guarded (req : Request) (w : World) (next : Result) : Result :=
  if authenticateParams req then next
  else reply 401 (JsonError "Unauthorized: Invalid API Key") w.

(** *** POST /api/upload *)

Definition expiryMinutes (expiry : option string) : Z :=
  let m := Js.num_or (Js.parseInt expiry) 60 in
  let m := if m <? 1 then 1 else m in
  if m >? 10080 then 10080 else m.

Definition uploaderName (username : option string) : string :=
  let u := Js.or_str username "web client" in
  if bool_decide (50 < String.length u)%nat then Js.substring0 50 u else u.

Definition upload_row (now : Z) (uuid : string) (req : Request) : Row :=
  let file := req_file req in
  {| id := uuid;
     type := match file with Some _ => file_type | None => text_type end;
     content := match file with
                | Some f => path f
                | None => default "" (body_text req)
                end;
     expiry := now + expiryMinutes (body_expiry req) * 60 * 1000;
     created_at := now;
     filename := originalname <$> file;
     mime_type := Some (match file with Some f => mimetype f | None => "text/plain" end);
     username := uploaderName (body_username req) |}.

Definition download_url (i : string) : string :=
  (Js.or_str env_BASE_URL "http://localhost:3000" +:+ "/api/download/" +:+ i)%string.

(** The handler from the test for a payload on, the body being parsed and
    its fields strings or [undefined]; [upload_handler_val] below is the
    handler on every request. *)
Definition upload_handler (now : Z) (uuid : string) (req : Request) (w : World) : Result :=
  if negb (bool_decide (is_Some (req_file req))) && negb (Js.truthy (body_text req))
  then reply 400 (JsonError "No file or text provided") w
  else
    let r := upload_row now uuid req in
    match Db.insert r (uploads w) with
    | None => reply 500 (JsonError "Database error") w
    | Some t =>
        reply 200 (JsonUploaded uuid (download_url uuid) (expiry r)) (mkWorld t (disk w))
    end.

(** *** GET /api/list *)

Definition list_columns : list string :=
  ["id"; "type"; "created_at"; "expiry"; "filename"; "username"].

Definition summary (r : Row) : JsObject := project list_columns (row_object r).

Definition list_rows (now : Z) (w : World) : list Row :=
  Db.order_by_created_at_desc (Db.select (λ r, expiry r > now) (uploads w)).

Definition list_handler (now : Z) (req : Request) (w : World) : Result :=
  reply 200 (JsonRows (summary <$> list_rows now w)) w.

(** *** DELETE /api/delete/:id *)

Definition delete_handler (req : Request) (w : World) : Result :=
  let i := param_id req in
  match Db.get i (uploads w) with
  | None => reply 404 (JsonError "Item not found") w
  | Some row =>
      let blobs := if bool_decide (type row = file_type) then [content row] else [] in
      let '(t, _) := Db.delete (λ r, id r = i) (uploads w) in
      mkResult (mkResponse 200 (JsonMessage "Item deleted"))
               (mkWorld t (unlink_all blobs (disk w))) blobs []
  end.

(** *** GET /api/download/:id *)

(** [res.download(path, name)] sends the blob when it is on disk; when it is
    not, the transfer fails and the error reaches the default error handler,
    which answers 404. *)
Definition res_download (blob : string) (name : option string) (w : World) : Result :=
  if bool_decide (blob ∈ disk w) then reply 200 (Download blob name) w
  else reply 404 ErrorPage w.

Definition download_handler (now : Z) (req : Request) (w : World) : Result :=
  match Db.get (param_id req) (uploads w) with
  | None => reply 404 (JsonError "Item not found") w
  | Some row =>
      if bool_decide (expiry row < now) then reply 410 (JsonError "Item expired") w
      else if bool_decide (type row = file_type)
           then res_download (content row) (filename row) w
           else reply 200 (JsonText (content row)) w
  end.

(** *** DELETE /api/cleanup *)

Definition cleanup_handler (now : Z) (req : Request) (w : World) : Result :=
  let '(w', (blobs, lines)) := performCleanup now w in
  mkResult (mkResponse 200 (JsonMessage "Cleanup started")) w' blobs lines.

(** *** The routes, with their authentication

    For the upload, [w] is the world that [upload.single('file')] leaves;
    [route] below puts multer in front. *)

Inductive Route := Upload | List | Delete | DownloadItem | Cleanup.

Definition serve (rt : Route) (now : Z) (uuid : string) (req : Request) (w : World)
  : Result :=
  match rt with
  | Upload => guarded req w (upload_handler now uuid req w)
  | List => guarded req w (list_handler now req w)
  | Delete => guarded req w (delete_handler req w)
  | DownloadItem => download_handler now req w
  | Cleanup => guarded req w (cleanup_handler now req w)
  end.

End Server.

(** ** The upload storage and the front-end route *)

(** The [filename] callback of the multer storage:
    [`${uuidv4()}-${file.originalname}`]. *)
Definition storage_filename (uuid originalname : string) : string :=
  (uuid +:+ "-" +:+ originalname)%string.

(** [index.html] of the front-end build, as the catch-all route finds it:
    missing ([fs.existsSync] is false), unreadable ([fs.readFile] fails) or
    read. *)
Inductive IndexFile := IndexMissing | IndexUnreadable | IndexRead (data : string).

Inductive PageBody :=
  | PageJsonError (error : string)   (* res.json({ error }) *)
  | PageSend (text : string).        (* res.send(text) *)

(** [res.cookie(name, value, { httpOnly, sameSite, maxAge })] *)
Record Cookie := mkCookie {
  cookie_name : string;
  cookie_value : string;
  httpOnly : bool;
  sameSite : string;
  maxAge : Z
}.

Record PageResult := mkPage {
  page_status : Z;
  page_body : PageBody;
  page_cookie : option Cookie
}.

(** [app.get(/.*/, ...)], registered when the front-end build directory
    exists and reached by the GET requests that no earlier route and no static
    file answered. *)
Definition frontend_handler (env_API_KEY : option string) (req_path : string)
    (index : IndexFile) : PageResult :=
  if String.prefix "/api" req_path
  then mkPage 404 (PageJsonError "API endpoint not found") None
  else match index with
       | IndexMissing => mkPage 404 (PageSend "Index file not found") None
       | IndexUnreadable => mkPage 500 (PageSend "Error loading frontend") None
       | IndexRead data =>
           mkPage 200 (PageSend data)
             (Some (mkCookie "auth_token" (API_KEY env_API_KEY) true "strict"
                             (7 * 24 * 60 * 60 * 1000)))
       end.

(** A request for the item [i] that presents no credential and has no
    field. *)
Definition item_request (i : string) : Request :=
  mkRequest None None None i None None None None.

(** ** Requests as the middleware leaves them

    The handlers above are the ones of [server.js] for requests whose body
    was parsed and whose fields, query parameter and cookie are strings or
    absent, in the world that [upload.single('file')] leaves.  What follows
    covers the other requests: a body that no parser filled, fields and
    credentials that are not strings, and the blob multer writes before the
    request is authenticated. *)

(** A value other than [undefined] and a string: [null], a boolean, a
    number, an array (a field sent more than once), an object.  The code
    looks at four things of it. *)
Record Observed := mkObserved {
  o_truthy : bool;           (* whether the value is truthy *)
  o_string : option string;  (* String(v), which parseInt reads; None: it throws *)
  o_long : option bool;      (* v.length > 50; None: the comparison throws *)
  o_stored : string          (* the text a TEXT column keeps of the bound value *)
}.

Inductive JsVal := VUndefined | VString (s : string) | VOther (o : Observed).

Global Instance Observed_eq_dec : EqDecision Observed.
Proof. solve_decision. Defined.

Global Instance JsVal_eq_dec : EqDecision JsVal.
Proof. solve_decision. Defined.

(** An array of strings, as a field or parameter sent more than once gives:
    it is truthy, [String] joins its elements with commas, its length is the
    number of elements, and node-sqlite3 binds it as the text
    "[object Object]". *)
Definition repeated (l : list string) : JsVal :=
  VOther {| o_truthy := true;
            o_string := Some (String.concat "," l);
            o_long := Some (bool_decide (50 < length l)%nat);
            o_stored := "[object Object]" |}.

Module Val.

Definition truthy (v : JsVal) : bool :=
  match v with
  | VUndefined => false
  | VString s => negb (bool_decide (s = ""))
  | VOther o => o_truthy o
  end.

(** [a || b] *)
Definition or (a b : JsVal) : JsVal := if truthy a then a else b.

(** [String(v)], [None] when the conversion throws. *)
Definition to_string (v : JsVal) : option string :=
  match v with
  | VUndefined => Some "undefined"
  | VString s => Some s
  | VOther o => o_string o
  end.

(** The text stored for a truthy value bound to a TEXT column. *)
Definition stored (v : JsVal) : string :=
  match v with
  | VUndefined => ""
  | VString s => s
  | VOther o => o_stored o
  end.

(** A field that is a string or absent. *)
Definition of_field (v : option string) : JsVal :=
  match v with Some s => VString s | None => VUndefined end.

End Val.

(** [req.body] with the three fields the upload reads. *)
Record RawBody := mkBody {
  rb_text : JsVal;
  rb_expiry : JsVal;
  rb_username : JsVal
}.

Record RawRequest := mkRaw {
  raw_header : option string;    (* req.headers['x-api-key'] *)
  raw_query : JsVal;             (* req.query.api_key *)
  raw_cookie : JsVal;            (* req.cookies.auth_token *)
  raw_param_id : string;         (* req.params.id *)
  raw_body : option RawBody;     (* req.body; undefined when no parser filled it *)
  raw_file : option UploadedFile (* req.file *)
}.

(** The request of the handlers above as the middleware leaves it. *)
Definition raw_of (req : Request) : RawRequest :=
  mkRaw (header_x_api_key req) (Val.of_field (query_api_key req))
        (Val.of_field (cookie_auth_token req)) (param_id req)
        (Some (mkBody (Val.of_field (body_text req)) (Val.of_field (body_expiry req))
                      (Val.of_field (body_username req))))
        (req_file req).

(** cookie-parser: a cookie value that starts with "j:" is replaced by the
    value its rest parses to as JSON, when it parses and the value is truthy.
    [JSON_parse] is [JSON.parse], [None] when it throws. *)
Definition JSONCookie (JSON_parse : string → option JsVal) (v : string) : JsVal :=
  if String.prefix "j:" v then
    match JSON_parse (String.substring 2 (String.length v - 2) v) with
    | Some j => if Val.truthy j then j else VString v
    | None => VString v
    end
  else VString v.

(** [upload.single('file')]: the blob of an uploaded file is written to disk
    before the request is authenticated.  (The requests multer refuses, for a
    file above the size limit or under another field name, are not
    modelled.) *)
Definition multer (file : option UploadedFile) (w : World) : World :=
  match file with
  | Some f => mkWorld (uploads w) ({[ path f ]} ∪ disk w)
  | None => w
  end.

Section Middleware.

Variable env_API_KEY : option string.
Variable env_BASE_URL : option string.
Variable io_fault : string → bool.

(** An exception thrown by a handler reaches the default error handler. *)
Definition thrown (w : World) : Result := reply 500 ErrorPage w.

Definition authenticate (raw : RawRequest) : bool :=
  let providedKey :=
    Val.or (Val.or (Val.of_field (raw_header raw)) (raw_query raw)) (raw_cookie raw) in
  Val.truthy providedKey && bool_decide (providedKey = VString (API_KEY env_API_KEY)).

Definition guard (raw : RawRequest) (w : World) (next : Result) : Result :=
  if authenticate raw then next
  else reply 401 (JsonError "Unauthorized: Invalid API Key") w.

(** [parseInt(expiry) || 60], clamped; [None] when [String(expiry)] throws. *)
Definition expiryMinutes_val (expiry : JsVal) : option Z :=
  match Val.to_string expiry with
  | None => None
  | Some s =>
      let m := Js.num_or (Js.parseInt_string s) 60 in
      let m := if m <? 1 then 1 else m in
      Some (if m >? 10080 then 10080 else m)
  end.

(** The uploader name as bound to the INSERT; [None] when the length test or
    the call of [substring], which only strings have, throws. *)
Definition uploaderName_val (username : JsVal) : option string :=
  match Val.or username (VString "web client") with
  | VString u => Some (if bool_decide (50 < String.length u)%nat
                       then Js.substring0 50 u else u)
  | VOther o =>
      match o_long o with
      | Some false => Some (o_stored o)
      | Some true => None
      | None => None
      end
  | VUndefined => None
  end.

(** The row of the INSERT; [None] when building it throws. *)
Definition upload_row_val (now : Z) (uuid : string) (file : option UploadedFile)
    (b : RawBody) : option Row :=
  match expiryMinutes_val (rb_expiry b) with
  | None => None
  | Some m =>
      match uploaderName_val (rb_username b) with
      | None => None
      | Some u =>
          Some {| id := uuid;
                  type := match file with Some _ => file_type | None => text_type end;
                  content := match file with
                             | Some f => path f
                             | None => Val.stored (rb_text b)
                             end;
                  expiry := now + m * 60 * 1000;
                  created_at := now;
                  filename := originalname <$> file;
                  mime_type := Some (match file with
                                     | Some f => mimetype f
                                     | None => "text/plain"
                                     end);
                  username := u |}
      end
  end.

(** The upload handler on every request: destructuring a body that is
    [undefined] throws. *)
Definition upload_handler_val (now : Z) (uuid : string) (raw : RawRequest) (w : World)
  : Result :=
  match raw_body raw with
  | None => thrown w
  | Some b =>
      if negb (bool_decide (is_Some (raw_file raw))) && negb (Val.truthy (rb_text b))
      then reply 400 (JsonError "No file or text provided") w
      else
        match upload_row_val now uuid (raw_file raw) b with
        | None => thrown w
        | Some r =>
            match Db.insert r (uploads w) with
            | None => reply 500 (JsonError "Database error") w
            | Some t =>
                reply 200 (JsonUploaded uuid (download_url env_BASE_URL uuid) (expiry r))
                      (mkWorld t (disk w))
            end
        end
  end.

(** The routes with all their middleware. *)
Definition route (rt : Route) (now : Z) (uuid : string) (raw : RawRequest) (w : World)
  : Result :=
  match rt with
  | Upload =>
      let w1 := multer (raw_file raw) w in
      guard raw w1 (upload_handler_val now uuid raw w1)
  | List => guard raw w (list_handler now (item_request (raw_param_id raw)) w)
  | Delete => guard raw w (delete_handler io_fault (item_request (raw_param_id raw)) w)
  | DownloadItem => download_handler now (item_request (raw_param_id raw)) w
  | Cleanup => guard raw w (cleanup_handler io_fault now (item_request (raw_param_id raw)) w)
  end.

End Middleware.

(** ** Notions used in the statements *)

(** The count a cleanup reports: the [changes] of its DELETE, and 0 when the
    DELETE was not run. *)
Definition reported_changes (lines : list LogLine) : nat :=
  match lines with
  | [FoundExpired _; CleanupComplete n] => n
  | _ => 0%nat
  end.

(** The selection of [deleteExpired] in the words of the specification. *)
Definition spec_expired (now : Z) (r : Row) : Prop := expiry r ≤ now.

(** The TTL bounds in the words of the specification. *)
Definition clamp (t : Z) : Z := Z.max 1 (Z.min t 10080).

(** The decimal rendering of an integer, as a form field carries it. *)
Definition decimal (t : Z) : string := NilZero.string_of_int (Z.to_int t).

(** The value of a decimal numeral read left to right after [acc]. *)
Definition horner (acc : Z) (d : Decimal.uint) : Z :=
  acc * 10 ^ Z.of_N (Unsigned.usize d) + Z.of_N (Unsigned.of_lu (Decimal.rev d)).


(** Listed objects in descending order of their [created_at] field. *)
Definition created_at_desc (a b : JsObject) : Prop :=
  ∃ x y, field "created_at" a = Some (JsNumber x) ∧
         field "created_at" b = Some (JsNumber y) ∧ y ≤ x.

(** A store holding one file item that expires at time 100. *)
Definition boundary_row : Row :=
  mkRow "k" file_type "uploads/k" 100 40 (Some "k.bin")
        (Some "application/octet-stream") "web client".

Definition boundary_world : World := mkWorld [boundary_row] {[ "uploads/k" ]}.

Definition no_fault : string → bool := λ _, false.

(** A store holding, beside the item "k", a file item that expired at time
    50. *)
Definition stale_row : Row :=
  mkRow "o" file_type "uploads/o" 50 10 (Some "o.bin")
        (Some "application/octet-stream") "web client".

Definition mixed_world : World :=
  mkWorld [stale_row; boundary_row] {[ "uploads/o"; "uploads/k" ]}.

(** A text upload with the TTL field [e] that presents no credential. *)
Definition text_request (e : option string) : Request :=
  mkRequest None None None "" (Some "hi") e None None.


(** What the upload handler guarantees of every row it stores. *)
Definition row_well_formed (r : Row) : Prop :=
  created_at r + 60000 ≤ expiry r ≤ created_at r + 604800000
  ∧ (is_Some (filename r) ↔ type r = file_type)
  ∧ is_Some (mime_type r)
  ∧ username r ≠ ""
  ∧ (String.length (username r) ≤ 50)%nat
  ∧ (type r = text_type → content r ≠ "").

(** The blobs the file rows of a table refer to. *)
Definition blobs (t : list Row) : list string :=
  content <$> filter (λ r, type r = file_type) t.

(** No two file rows share a blob, and every blob referred to is on disk. *)
Definition blobs_intact (w : World) : Prop :=
  NoDup (blobs (uploads w)) ∧ ∀ p, p ∈ blobs (uploads w) → p ∈ disk w.

(** What may follow a decimal numeral without being read as part of it: the
    end of the string, or a character that is no decimal digit and not the
    [x] of a hexadecimal prefix. *)
Definition stops (sfx : string) : Prop :=
  match sfx with
  | EmptyString => True
  | String c _ => Js.digit_val 10 c = None ∧ c ≠ "x"%char ∧ c ≠ "X"%char
  end.

(** A request carries a payload: a file, or a text that is not empty. *)
Definition has_payload (req : Request) : Prop :=
  is_Some (req_file req) ∨ Js.truthy (body_text req) = true.

(** ** Facts about the table operations *)

Section DbFacts.

Context (P : Row → Prop) `{∀ r, Decision (P r)}.

Lemma delete_rows t r : r ∈ (Db.delete P t).1 ↔ r ∈ t ∧ ¬ P r.
Proof. unfold Db.delete; simpl. rewrite list_elem_of_filter. tauto. Qed.

Lemma delete_changes t :
  (length t = length (Db.delete P t).1 + (Db.delete P t).2)%nat.
Proof.
  unfold Db.delete; simpl.
  induction t as [|r t IH]; [done|].
  rewrite !filter_cons. destruct (decide (P r)), (decide (¬ P r)); simpl; try tauto; lia.
Qed.

Lemma select_none_delete t : Db.select P t = [] → (Db.delete P t).1 = t.
Proof.
  unfold Db.select, Db.delete; simpl. intros Hnone.
  induction t as [|r t IH]; [done|].
  rewrite filter_cons in Hnone. rewrite filter_cons.
  destruct (decide (P r)); [done|].
  destruct (decide (¬ P r)); [|tauto]. f_equal. auto.
Qed.

Lemma select_after_delete t : Db.select P (Db.delete P t).1 = [].
Proof.
  unfold Db.select, Db.delete; simpl.
  induction t as [|r t IH]; [done|].
  rewrite filter_cons. destruct (decide (¬ P r)) as [Hn|Hn]; [|done].
  rewrite filter_cons. destruct (decide (P r)); [tauto|done].
Qed.

End DbFacts.

Lemma get_none i t : Db.get i t = None ↔ ∀ r, r ∈ t → id r ≠ i.
Proof.
  unfold Db.get, Db.select. rewrite head_None. split.
  - intros Hnil r Hr Hid.
    by apply (filter_nil_not_elem_of (λ r, id r = i) t r Hnil Hid).
  - intros Hno. destruct (filter _ t) as [|r l] eqn:E; [done|].
    assert (Hr : r ∈ filter (λ r, id r = i) t) by (rewrite E; left).
    apply list_elem_of_filter in Hr as [Hid Hr]. by destruct (Hno r Hr).
Qed.

Lemma get_some i t r : Db.get i t = Some r → r ∈ t ∧ id r = i.
Proof.
  unfold Db.get, Db.select. intros Hh.
  assert (Hr : r ∈ filter (λ r, id r = i) t).
  { destruct (filter _ t) as [|r' l]; simplify_eq/=. left. }
  apply list_elem_of_filter in Hr. tauto.
Qed.

(** With [id] a key, [Db.get] finds each row of the table under its id. *)
Lemma get_unique t r : NoDup (id <$> t) → r ∈ t → Db.get (id r) t = Some r.
Proof.
  unfold Db.get, Db.select. induction t as [|a t IH]; intros Hnd Hr.
  - by apply elem_of_nil in Hr.
  - rewrite fmap_cons in Hnd. apply NoDup_cons in Hnd as [Ha Hnd].
    rewrite filter_cons. apply elem_of_cons in Hr as [->|Hr].
    + by destruct (decide (id a = id a)).
    + destruct (decide (id a = id r)) as [Heq|Hne]; [|by apply IH].
      destruct Ha. rewrite Heq. by apply list_elem_of_fmap_2.
Qed.

(** An insert keeps [id] a key. *)
Lemma insert_unique r t t' :
  NoDup (id <$> t) → Db.insert r t = Some t' → NoDup (id <$> t').
Proof.
  unfold Db.insert. intros Hnd Hins.
  destruct (Db.get (id r) t) eqn:E; [done|]. simplify_eq.
  rewrite fmap_app. apply NoDup_app. split; [done|]. split.
  - intros i (a & -> & Ha)%list_elem_of_fmap [Heq|[]%elem_of_nil]%elem_of_cons.
    rewrite get_none in E. by destruct (E a Ha).
  - apply NoDup_singleton.
Qed.

Lemma get_after_delete i t : Db.get i (Db.delete (λ r, id r = i) t).1 = None.
Proof. unfold Db.get. by rewrite select_after_delete. Qed.

Section CleanupFacts.

Variable io_fault : string → bool.

Lemma unlink_all_elem ps d p :
  p ∈ unlink_all io_fault ps d ↔ p ∈ d ∧ (p ∈ ps → io_fault p = true).
Proof.
  revert d. induction ps as [|q ps IH]; intros d; simpl.
  - split; [intros Hp; split; [done|]; by intros ?%elem_of_nil | tauto].
  - rewrite IH. unfold unlink. destruct (io_fault q) eqn:Eq.
    + split; intros [Hd Hps]; (split; [done|]).
      * intros [->|Hin]%elem_of_cons; auto.
      * intros Hin. apply Hps. by right.
    + rewrite elem_of_difference, elem_of_singleton.
      split.
      * intros [[Hd Hne] Hps]. split; [done|].
        intros [->|Hin]%elem_of_cons; [done|auto].
      * intros [Hd Hps]. split; [split; [done|]|].
        -- intros ->. assert (io_fault q = true) by (apply Hps; left). congruence.
        -- intros Hin. apply Hps. by right.
Qed.

Lemma performCleanup_rows now w :
  uploads (performCleanup io_fault now w).1
  = (Db.delete (λ r, expiry r < now) (uploads w)).1.
Proof.
  unfold performCleanup. case_bool_decide as Hlen; simpl.
  - symmetry. apply select_none_delete. by apply nil_length_inv.
  - done.
Qed.

Lemma performCleanup_blobs now w :
  (performCleanup io_fault now w).2.1
  = content <$> filter (λ r, type r = file_type)
                       (Db.select (λ r, expiry r < now) (uploads w)).
Proof.
  unfold performCleanup. case_bool_decide as Hlen; simpl; [|done].
  apply nil_length_inv in Hlen. by rewrite Hlen.
Qed.

Lemma performCleanup_changes now w :
  reported_changes (performCleanup io_fault now w).2.2
  = length (Db.select (λ r, expiry r < now) (uploads w)).
Proof.
  unfold performCleanup. case_bool_decide as Hlen; simpl; [by rewrite Hlen|done].
Qed.

Lemma performCleanup_disk now w :
  disk (performCleanup io_fault now w).1
  = unlink_all io_fault (performCleanup io_fault now w).2.1 (disk w).
Proof. unfold performCleanup. case_bool_decide; done. Qed.

End CleanupFacts.

(** ** The cleanup job *)

(** C1 (as amended): for every store and every time [now], [performCleanup]
    selects exactly the rows with [expiry < now] (a row expiring at [now]
    itself is not selected), hands the blob of every selected file row to
    [fs.unlink], removes all and only the selected rows whatever the unlinks
    do, and reports the number of rows removed. *)
Theorem performCleanup_deletes_expired (io_fault : string → bool) (now : Z) (w : World) :
  let res := performCleanup io_fault now w in
  let selected := Db.select (λ r, expiry r < now) (uploads w) in
  (∀ r, r ∈ selected ↔ r ∈ uploads w ∧ expiry r < now)
  ∧ (∀ p, p ∈ res.2.1 ↔ ∃ r, r ∈ selected ∧ type r = file_type ∧ content r = p)
  ∧ (∀ r, r ∈ uploads res.1 ↔ r ∈ uploads w ∧ ¬ expiry r < now)
  ∧ uploads res.1 = filter (λ r, ¬ expiry r < now) (uploads w)
  ∧ reported_changes res.2.2 = length selected
  ∧ (length (uploads w) = length (uploads res.1) + reported_changes res.2.2)%nat
  ∧ (∀ p, p ∈ disk res.1 ↔ p ∈ disk w ∧ (p ∈ res.2.1 → io_fault p = true)).
Proof.
  intros res selected. subst res selected.
  rewrite performCleanup_rows, performCleanup_blobs, performCleanup_changes,
    performCleanup_disk, performCleanup_blobs.
  split; [intros r; unfold Db.select; rewrite list_elem_of_filter; tauto|].
  split.
  { intros p. rewrite list_elem_of_fmap. split.
    - intros (r & -> & [? ?]%list_elem_of_filter). eauto.
    - intros (r & Hr & Hf & <-). exists r. split; [done|].
      by apply list_elem_of_filter. }
  split; [intros r; apply delete_rows|].
  split; [done|].
  split; [done|].
  split; [apply (delete_changes (λ r, expiry r < now))|].
  intros p. apply unlink_all_elem.
Qed.

(** C1, the claim as worded fails: a row with [expiry = now] is expired in
    the words of the specification, yet the cleanup leaves it in the table,
    unlinks nothing and removes no row. *)
Lemma performCleanup_keeps_row_expiring_now :
  spec_expired 100 boundary_row
  ∧ boundary_row ∈ uploads (performCleanup no_fault 100 boundary_world).1
  ∧ (performCleanup no_fault 100 boundary_world).2.1 = []
  ∧ reported_changes (performCleanup no_fault 100 boundary_world).2.2 = 0%nat.
Proof.
  split; [unfold spec_expired; simpl; lia|].
  split; [|split; reflexivity].
  rewrite performCleanup_rows. apply delete_rows. split; [left|simpl; lia].
Qed.

(** C5 (as amended): a second cleanup at the same time [now] finds nothing:
    it reports no change, unlinks nothing, leaves the world as the first run
    left it, and no row with [expiry < now] remains. *)
Theorem performCleanup_twice (io_fault : string → bool) (now : Z) (w : World) :
  let first := performCleanup io_fault now w in
  let second := performCleanup io_fault now first.1 in
  reported_changes second.2.2 = 0%nat
  ∧ second.2.1 = []
  ∧ second.1 = first.1
  ∧ ∀ r, r ∈ uploads second.1 → ¬ expiry r < now.
Proof.
  intros first second.
  assert (Hsel : Db.select (λ r, expiry r < now) (uploads first.1) = []).
  { subst first. rewrite performCleanup_rows.
    apply (select_after_delete (λ r, expiry r < now)). }
  assert (Hsame : second = (first.1, ([], []))).
  { subst second. unfold performCleanup at 1. rewrite Hsel. done. }
  rewrite Hsame; simpl. repeat split.
  intros r Hr Hlt.
  assert (Hin : r ∈ Db.select (λ r, expiry r < now) (uploads first.1))
    by by apply list_elem_of_filter.
  rewrite Hsel in Hin. by apply elem_of_nil in Hin.
Qed.

(** C5, the claim as worded fails: after two cleanups at time 100 the row
    expiring at 100 is still in the table. *)
Lemma performCleanup_twice_keeps_row_expiring_now :
  spec_expired 100 boundary_row
  ∧ boundary_row ∈
      uploads (performCleanup no_fault 100
                 (performCleanup no_fault 100 boundary_world).1).1.
Proof.
  split; [unfold spec_expired; simpl; lia|].
  rewrite !performCleanup_rows. apply delete_rows. split; [|simpl; lia].
  apply delete_rows. split; [left|simpl; lia].
Qed.

(** ** Listing *)

Global Instance newer_first_total : Total Db.newer_first.
Proof. intros a b. unfold Db.newer_first. lia. Qed.

Global Instance newer_first_trans : Transitive Db.newer_first.
Proof. intros a b c. unfold Db.newer_first. lia. Qed.

Lemma summary_fields (r : Row) :
  summary r =
    [ ("id", JsString (id r)); ("type", JsString (type_name (type r)));
      ("created_at", JsNumber (created_at r)); ("expiry", JsNumber (expiry r));
      ("filename", js_opt (filename r)); ("username", JsString (username r)) ].
Proof. reflexivity. Qed.

Lemma summary_expiry (a b : Row) : summary a = summary b → expiry a = expiry b.
Proof. rewrite !summary_fields. congruence. Qed.

Lemma list_rows_elem now w r : r ∈ list_rows now w ↔ r ∈ uploads w ∧ expiry r > now.
Proof.
  unfold list_rows, Db.order_by_created_at_desc, Db.select.
  rewrite merge_sort_Permutation, list_elem_of_filter. tauto.
Qed.

(** C2: for every store and every time [now], the list handler answers with
    the summaries of exactly the rows with [expiry > now], in descending order
    of [created_at], and no summary carries the [content] column (nor the
    [mime_type] column), for file items as for text items; the store is left
    as it was. *)
Theorem list_handler_live (now : Z) (req : Request) (w : World) :
  let rows := list_rows now w in
  response (list_handler now req w) = mkResponse 200 (JsonRows (summary <$> rows))
  ∧ world (list_handler now req w) = w
  ∧ (∀ r, r ∈ rows ↔ r ∈ uploads w ∧ expiry r > now)
  ∧ (∀ r, r ∈ uploads w → (summary r ∈ summary <$> rows ↔ expiry r > now))
  ∧ rows ≡ₚ filter (λ r, expiry r > now) (uploads w)
  ∧ StronglySorted Db.newer_first rows
  ∧ StronglySorted created_at_desc (summary <$> rows)
  ∧ (∀ o, o ∈ summary <$> rows →
       field "content" o = None ∧ field "mime_type" o = None).
Proof.
  intros rows.
  assert (Hsorted : StronglySorted Db.newer_first rows).
  { apply Sorted_StronglySorted; [apply _|].
    apply (Sorted_merge_sort Db.newer_first). }
  split; [done|]. split; [done|].
  split; [intros r; apply list_rows_elem|].
  split.
  { intros r Hr. rewrite list_elem_of_fmap. split.
    - intros (r' & Heq & [_ Hlive]%list_rows_elem).
      by rewrite (summary_expiry _ _ Heq).
    - intros Hlive. exists r. split; [done|]. by apply list_rows_elem. }
  split; [apply (merge_sort_Permutation Db.newer_first)|].
  split; [done|].
  split.
  { eapply StronglySorted_fmap; [|exact Hsorted].
    intros a b Hab. exists (created_at a), (created_at b). by rewrite !summary_fields. }
  intros o (r & -> & _)%list_elem_of_fmap. by rewrite summary_fields.
Qed.

(** ** Reading the TTL field *)

Ltac eval_digit :=
  match goal with
  | |- context [Js.digit_val 10 ?c] =>
      let v := eval vm_compute in (Js.digit_val 10 c) in
      change (Js.digit_val 10 c) with v
  end.

Lemma horner_cons acc d :
  d ≠ Nil →
  horner acc d = horner (acc * 10 + Z.of_N (Unsigned.hd d)) (Unsigned.tl d).
Proof.
  unfold horner. intros Hd.
  destruct d; [done|..]; clear Hd; simpl Unsigned.tl; simpl Unsigned.hd;
    unfold Decimal.rev; simpl revapp; rewrite Unsigned.of_lu_revapp;
    simpl Unsigned.usize; simpl Unsigned.of_lu;
    rewrite ?N2Z.inj_add, ?N2Z.inj_mul, ?N2Z.inj_pow, ?N2Z.inj_succ;
    rewrite Z.pow_succ_r by lia; fold (Decimal.rev d); simpl Z.of_N; ring.
Qed.

Lemma digits_uint d : ∀ acc,
  Js.digits 10 acc true (NilEmpty.string_of_uint d) = Some (horner acc d).
Proof.
  induction d; intros acc;
    [unfold horner; simpl; f_equal; lia|..];
    rewrite horner_cons by done;
    cbn [NilEmpty.string_of_uint Js.digits]; eval_digit; cbv iota beta;
    rewrite IHd; reflexivity.
Qed.

Lemma horner_to_uint p : horner 0 (Pos.to_uint p) = Z.pos p.
Proof.
  unfold horner. rewrite <- Unsigned.of_uint_alt, Unsigned.of_to. simpl. lia.
Qed.

Lemma skip_space_uint d :
  Js.skip_space (NilEmpty.string_of_uint d) = NilEmpty.string_of_uint d.
Proof. destruct d; reflexivity. Qed.

Lemma sign_uint d :
  Js.sign_and_rest (NilEmpty.string_of_uint d) = (1, NilEmpty.string_of_uint d).
Proof. destruct d; reflexivity. Qed.

Lemma radix_uint d :
  Js.radix_and_rest (NilEmpty.string_of_uint d) = (10, NilEmpty.string_of_uint d).
Proof. destruct d as [|d|d|d|d|d|d|d|d|d|d]; try reflexivity. destruct d; reflexivity. Qed.

Lemma digits_uint_unseen d :
  d ≠ Nil → Js.digits 10 0 false (NilEmpty.string_of_uint d) = Some (horner 0 d).
Proof.
  intros Hd. rewrite (horner_cons 0 d Hd).
  destruct d; [done|..]; cbn [NilEmpty.string_of_uint Js.digits]; eval_digit;
    cbv iota beta; apply digits_uint.
Qed.

Lemma parseInt_uint d :
  d ≠ Nil →
  Js.parseInt_string (NilEmpty.string_of_uint d) = Some (horner 0 d)
  ∧ Js.parseInt_string (String "-" (NilEmpty.string_of_uint d)) = Some (- horner 0 d).
Proof.
  intros Hd. unfold Js.parseInt_string. split.
  - rewrite skip_space_uint, sign_uint, radix_uint, digits_uint_unseen by done.
    f_equal; lia.
  - change (Js.skip_space (String "-" ?r)) with (String "-" r).
    change (Js.sign_and_rest (String "-" ?r)) with (-1, r).
    cbv beta iota. rewrite radix_uint, digits_uint_unseen by done. f_equal; lia.
Qed.

Lemma parseInt_decimal (t : Z) : Js.parseInt_string (decimal t) = Some t.
Proof.
  destruct t as [|p|p]; [reflexivity|..];
    unfold decimal, NilZero.string_of_int, NilZero.string_of_uint; simpl Z.to_int;
    pose proof (Unsigned.to_uint_nonnil p) as Hp;
    destruct (parseInt_uint _ Hp) as [Hpos Hneg];
    rewrite horner_to_uint in Hpos, Hneg;
    destruct (Pos.to_uint p); done.
Qed.

Lemma expiryMinutes_parsed (e : option string) :
  expiryMinutes e =
    match Js.parseInt e with
    | Some t => if decide (t = 0) then 60 else clamp t
    | None => 60
    end.
Proof.
  unfold expiryMinutes, Js.num_or, clamp.
  destruct (Js.parseInt e) as [[|p|p]|]; try reflexivity.
  destruct (decide (Z.pos p = 0)); [lia|].
  destruct (Z.pos p <? 1) eqn:E1; [apply Z.ltb_lt in E1; lia|].
  destruct (Z.pos p >? 10080) eqn:E2.
  - apply Z.gtb_lt in E2. lia.
  - rewrite Z.gtb_ltb in E2. apply Z.ltb_ge in E2. lia.
Qed.

Lemma expiryMinutes_range (e : option string) : 1 ≤ expiryMinutes e ≤ 10080.
Proof.
  rewrite expiryMinutes_parsed. unfold clamp.
  destruct (Js.parseInt e) as [t|]; [|lia]. destruct (decide (t = 0)); lia.
Qed.

(** ** Download *)

(** C4 (as amended): the download handler answers NotFound when no row has
    the id; when a row has it, [Db.get] returns a row of that id whatever its
    expiry (the row itself, [id] being a key), and the handler answers Expired
    exactly when [expiry < now]; otherwise, so also when [expiry = now], it
    answers with the payload: the text for a text row, the blob for a file
    row, the transfer of a blob that is no longer on disk being answered 404
    by the error page.  It never changes the world. *)
Theorem download_handler_outcome (now : Z) (req : Request) (w : World) :
  let res := download_handler now req w in
  world res = w ∧ unlinks res = []
  ∧ (Db.get (param_id req) (uploads w) = None ↔
       ∀ r, r ∈ uploads w → id r ≠ param_id req)
  ∧ (∀ r, r ∈ uploads w →
       ∃ r', Db.get (id r) (uploads w) = Some r' ∧ id r' = id r)
  ∧ (NoDup (id <$> uploads w) →
       ∀ r, r ∈ uploads w → Db.get (id r) (uploads w) = Some r)
  ∧ match Db.get (param_id req) (uploads w) with
    | None => response res = mkResponse 404 (JsonError "Item not found")
    | Some row =>
        (error_of (response res) = Some Expired ↔ expiry row < now)
        ∧ (expiry row < now → response res = mkResponse 410 (JsonError "Item expired"))
        ∧ (¬ expiry row < now →
             match type row with
             | text_type => response res = mkResponse 200 (JsonText (content row))
             | file_type =>
                 (content row ∈ disk w →
                    response res
                    = mkResponse 200 (Download (content row) (filename row)))
                 ∧ (content row ∉ disk w → response res = mkResponse 404 ErrorPage)
             end)
    end.
Proof.
  intros res. subst res. unfold download_handler, res_download.
  split; [by repeat case_match|]. split; [by repeat case_match|].
  split; [apply get_none|]. split.
  { intros r Hr. destruct (Db.get (id r) (uploads w)) as [r'|] eqn:E.
    - exists r'. split; [done|]. by apply get_some in E as [_ ?].
    - rewrite get_none in E. by destruct (E r Hr). }
  split; [intros Hnd r Hr; by apply get_unique|].
  destruct (Db.get _ _) as [row|]; [|done].
  case_bool_decide as Hexp.
  - split; [done|]. split; [done|]. tauto.
  - split.
    { destruct (type row); simpl; [case_bool_decide|]; simpl; split; try done; tauto. }
    split; [tauto|]. intros _.
    destruct (type row); simpl; [|done].
    case_bool_decide; split; try done; tauto.
Qed.

(** C4, the claim as worded fails: at [now = expiry] the row is not live in
    the words of the specification, yet the download is served. *)
Lemma download_handler_serves_row_expiring_now :
  spec_expired 100 boundary_row
  ∧ Db.get "k" (uploads boundary_world) = Some boundary_row
  ∧ response (download_handler 100 (item_request "k") boundary_world)
    = mkResponse 200 (Download "uploads/k" (Some "k.bin"))
  ∧ error_of (response (download_handler 100 (item_request "k") boundary_world))
    ≠ Some Expired.
Proof.
  split; [unfold spec_expired; simpl; lia|].
  split; [reflexivity|]. split; [reflexivity|]. vm_compute. discriminate.
Qed.

(** ** Delete *)

(** C6: deleting an id that no row has answers NotFound, leaves the world as
    it is and unlinks nothing; and whatever a first delete of an id did, a
    second delete of the same id answers NotFound, unlinks nothing and leaves
    the world as the first left it. *)
Theorem delete_handler_not_found (io_fault : string → bool) (req : Request) (w : World) :
  let first := delete_handler io_fault req w in
  let second := delete_handler io_fault req (world first) in
  ((∀ r, r ∈ uploads w → id r ≠ param_id req) →
     error_of (response first) = Some NotFound ∧ world first = w ∧ unlinks first = [])
  ∧ ((∃ r, r ∈ uploads w ∧ id r = param_id req) →
     status (response first) = 200
     ∧ ∀ r, r ∈ uploads (world first) ↔ r ∈ uploads w ∧ id r ≠ param_id req)
  ∧ error_of (response second) = Some NotFound
  ∧ unlinks second = []
  ∧ world second = world first.
Proof.
  intros first second.
  assert (Hgone : Db.get (param_id req) (uploads (world first)) = None).
  { subst first. unfold delete_handler.
    destruct (Db.get (param_id req) (uploads w)) eqn:E; simpl; [|done].
    apply get_after_delete. }
  split; [|split].
  - intros Habsent%get_none. subst first. unfold delete_handler.
    by rewrite Habsent.
  - intros (r & Hr & Hid). subst first. unfold delete_handler.
    destruct (Db.get (param_id req) (uploads w)) eqn:E; simpl.
    + split; [done|]. intros r'. apply delete_rows.
    + rewrite get_none in E. by destruct (E r Hr).
  - subst second. unfold delete_handler at 1 2 3. by rewrite Hgone.
Qed.

(** Deleting the file item "k" twice, and deleting "zz", which no row has. *)
Lemma delete_handler_not_found_witness :
  (∀ r, r ∈ uploads boundary_world → id r ≠ param_id (item_request "zz"))
  ∧ error_of (response (delete_handler no_fault (item_request "zz") boundary_world))
    = Some NotFound
  ∧ unlinks (delete_handler no_fault (item_request "k") boundary_world) = ["uploads/k"]
  ∧ unlinks (delete_handler no_fault (item_request "k")
               (world (delete_handler no_fault (item_request "k") boundary_world))) = [].
Proof.
  assert (Habsent : ∀ r, r ∈ uploads boundary_world → id r ≠ param_id (item_request "zz")).
  { intros r Hr. apply list_elem_of_singleton in Hr. subst r. discriminate. }
  split; [exact Habsent|].
  split; [exact (proj1 (proj1 (delete_handler_not_found no_fault (item_request "zz")
                                  boundary_world) Habsent))|].
  split; [reflexivity|].
  exact (proj1 (proj2 (proj2 (proj2 (delete_handler_not_found no_fault (item_request "k")
                                        boundary_world))))).
Defined.

(** ** Upload *)

Lemma substring0_length (n : nat) (s : string) :
  String.length (Js.substring0 n s) = Nat.min n (String.length s).
Proof.
  unfold Js.substring0. revert s.
  induction n as [|n IH]; intros [|c s]; simpl; auto.
Qed.




(** C9 (as amended): a text item (an upload without a file) is stored with a
    null [filename] and with [mime_type] "text/plain"; a file item is stored
    with the name and the media type of the uploaded file.  So [filename] is
    present exactly on file items, while [mime_type] is present on every
    item. *)
Theorem upload_row_file_columns (now : Z) (uuid : string) (req : Request) :
  let r := upload_row now uuid req in
  (req_file req = None →
     type r = text_type ∧ filename r = None ∧ mime_type r = Some "text/plain")
  ∧ (∀ f, req_file req = Some f →
     type r = file_type ∧ filename r = Some (originalname f)
     ∧ mime_type r = Some (mimetype f))
  ∧ (is_Some (filename r) ↔ type r = file_type)
  ∧ is_Some (mime_type r).
Proof.
  simpl. split; [by intros ->|]. split; [by intros f ->|].
  split; [|by eexists].
  destruct (req_file req); simpl; split; done.
Qed.

(** C9, the claim as worded fails: the row of a text upload has the
    [mime_type] "text/plain", which is not null. *)
Lemma text_item_has_mime_type :
  type (upload_row 5000 "u" (text_request None)) = text_type
  ∧ mime_type (upload_row 5000 "u" (text_request None)) = Some "text/plain"
  ∧ mime_type (upload_row 5000 "u" (text_request None)) ≠ None.
Proof. split; [reflexivity|]. split; [reflexivity|discriminate]. Qed.

(** A text upload. *)
Lemma upload_row_file_columns_witness :
  req_file (text_request None) = None
  ∧ filename (upload_row 5000 "u" (text_request None)) = None
  ∧ mime_type (upload_row 5000 "u" (text_request None)) = Some "text/plain".
Proof.
  split; [reflexivity|].
  destruct (upload_row_file_columns 5000 "u" (text_request None)) as [H _].
  destruct (H eq_refl) as (_ & Hf & Hm). split; [exact Hf | exact Hm].
Defined.

(** ** Authentication *)

Lemma API_KEY_not_empty (env_API_KEY : option string) : API_KEY env_API_KEY ≠ "".
Proof.
  unfold API_KEY, Js.or_str. destruct env_API_KEY as [s|]; [|done].
  by case_bool_decide.
Qed.

Lemma authenticateParams_header (env_API_KEY : option string) (req : Request) :
  header_x_api_key req = Some (API_KEY env_API_KEY) →
  authenticateParams env_API_KEY req = true.
Proof.
  intros Hh. unfold authenticateParams, Js.or. rewrite Hh.
  pose proof (API_KEY_not_empty env_API_KEY) as Hne.
  assert (Ht : Js.truthy (Some (API_KEY env_API_KEY)) = true).
  { simpl. by rewrite (bool_decide_eq_false_2 _ Hne). }
  rewrite !Ht. simpl. by rewrite bool_decide_eq_true_2.
Qed.

Lemma authenticateParams_none (env_API_KEY : option string) (req : Request) :
  header_x_api_key req = None → query_api_key req = None →
  cookie_auth_token req = None →
  authenticateParams env_API_KEY req = false.
Proof. unfold authenticateParams. by intros -> -> ->. Qed.

Lemma handlers_never_unauthorized
    (env_BASE_URL : option string) (io_fault : string → bool)
    (now : Z) (uuid : string) (req : Request) (w : World) :
  error_of (response (upload_handler env_BASE_URL now uuid req w)) ≠ Some Unauthorized
  ∧ error_of (response (list_handler now req w)) ≠ Some Unauthorized
  ∧ error_of (response (delete_handler io_fault req w)) ≠ Some Unauthorized
  ∧ error_of (response (download_handler now req w)) ≠ Some Unauthorized
  ∧ error_of (response (cleanup_handler io_fault now req w)) ≠ Some Unauthorized.
Proof.
  unfold upload_handler, list_handler, delete_handler, download_handler,
    res_download, cleanup_handler.
  repeat split; repeat case_match; done.
Qed.



(** ** Runs of the model *)

Example parseInt_samples :
  Js.parseInt (Some " 42abc") = Some 42
  ∧ Js.parseInt (Some "0x1f") = Some 31
  ∧ Js.parseInt (Some "-0") = Some 0
  ∧ Js.parseInt (Some "abc") = None
  ∧ Js.parseInt None = None.
Proof. repeat split. Qed.

Example expiryMinutes_samples :
  expiryMinutes None = 60
  ∧ expiryMinutes (Some "abc") = 60
  ∧ expiryMinutes (Some "0") = 60
  ∧ expiryMinutes (Some "-3") = 1
  ∧ expiryMinutes (Some "1") = 1
  ∧ expiryMinutes (Some "10080") = 10080
  ∧ expiryMinutes (Some "99999") = 10080.
Proof. repeat split. Qed.

(** A text item made at time 0 with a TTL of 60 minutes is listed after 59
    minutes and not after 61, when [Db.get] still returns its row and the
    download answers Expired. *)
Example text_item_lifetime :
  let w := world (upload_handler None 0 "a" (text_request (Some "60")) (mkWorld [] ∅)) in
  (expiry <$> uploads w) = [3600000]
  ∧ (id <$> list_rows 3540000 w) = ["a"]
  ∧ list_rows 3660000 w = []
  ∧ (expiry <$> Db.get "a" (uploads w)) = Some 3600000
  ∧ response (download_handler 3540000 (item_request "a") w)
    = mkResponse 200 (JsonText "hi")
  ∧ error_of (response (download_handler 3660000 (item_request "a") w)) = Some Expired.
Proof. vm_compute. repeat split. Qed.

(** A cleanup whose unlink fails still removes the row; the blob stays. *)
Example cleanup_with_failing_unlink :
  let res := performCleanup (λ _, true) 200 boundary_world in
  uploads res.1 = []
  ∧ res.2.1 = ["uploads/k"]
  ∧ reported_changes res.2.2 = 1%nat
  ∧ elements (disk res.1) = ["uploads/k"]
  ∧ elements (disk (performCleanup no_fault 200 boundary_world).1) = [].
Proof. vm_compute. repeat split. Qed.

(** A second upload under an id already stored is answered StoreError and
    leaves the table as it is. *)
Example upload_with_taken_id :
  let res := upload_handler None 7 "k" (text_request None) boundary_world in
  error_of (response res) = Some StoreError ∧ world res = boundary_world.
Proof. split; reflexivity. Qed.

(** ** Further properties of the authentication *)


(** X2: when [API_KEY] is not set in the environment, or set to the empty
    string, the requests that present "default-insecure-key" in the header
    are authenticated. *)
Theorem unset_key_accepts_default (env_API_KEY : option string) (req : Request) :
  Js.truthy env_API_KEY = false →
  header_x_api_key req = Some "default-insecure-key" →
  authenticateParams env_API_KEY req = true.
Proof.
  intros Henv Hh. apply authenticateParams_header. rewrite Hh. f_equal.
  unfold API_KEY, Js.or_str. destruct env_API_KEY as [s|]; [|done].
  simpl in Henv. apply negb_false_iff in Henv. by rewrite Henv.
Qed.

Lemma unset_key_accepts_default_witness :
  Js.truthy (Some "") = false
  ∧ authenticateParams (Some "")
      (mkRequest (Some "default-insecure-key") None None "" None None None None) = true.
Proof.
  split; [reflexivity|].
  apply (unset_key_accepts_default (Some "")); reflexivity.
Defined.

(** ** The front-end route *)


(** ** Further properties of the upload *)

Lemma has_payload_guard (req : Request) :
  negb (bool_decide (is_Some (req_file req))) && negb (Js.truthy (body_text req)) = false
  ↔ has_payload req.
Proof.
  unfold has_payload. rewrite andb_false_iff, !negb_false_iff, bool_decide_eq_true.
  tauto.
Qed.


Lemma get_app_other (i : string) (t : list Row) (r : Row) :
  id r ≠ i → Db.get i (t ++ [r]) = Db.get i t.
Proof.
  unfold Db.get, Db.select. intros Hid.
  rewrite filter_app, (filter_cons _ r). destruct (decide (id r = i)); [done|].
  by rewrite filter_nil, app_nil_r.
Qed.

(** The three ways an upload ends. *)
Lemma upload_handler_cases env_BASE_URL now uuid req w :
  (¬ has_payload req
   ∧ upload_handler env_BASE_URL now uuid req w
     = reply 400 (JsonError "No file or text provided") w)
  ∨ (has_payload req ∧ is_Some (Db.get uuid (uploads w))
     ∧ upload_handler env_BASE_URL now uuid req w
       = reply 500 (JsonError "Database error") w)
  ∨ (has_payload req ∧ Db.get uuid (uploads w) = None
     ∧ upload_handler env_BASE_URL now uuid req w
       = reply 200 (JsonUploaded uuid (download_url env_BASE_URL uuid)
                      (expiry (upload_row now uuid req)))
           (mkWorld (uploads w ++ [upload_row now uuid req]) (disk w))).
Proof.
  unfold upload_handler, Db.insert.
  destruct (negb _ && negb _) eqn:Hg.
  - left. split; [|done]. intros Hp%has_payload_guard. congruence.
  - apply has_payload_guard in Hg. right. simpl id.
    destruct (Db.get uuid (uploads w)) eqn:E; [left|right]; by eauto.
Qed.




(** X7: after an upload under a fresh id, every listing made before the
    expiry of the new item shows it together with exactly what the listing
    showed before; a listing made at or after the expiry shows what it showed
    before. *)
Theorem upload_then_list
    (env_BASE_URL : option string) (now t : Z) (uuid : string)
    (req : Request) (w : World) :
  has_payload req →
  Db.get uuid (uploads w) = None →
  let w' := world (upload_handler env_BASE_URL now uuid req w) in
  let row := upload_row now uuid req in
  (t < expiry row →
     list_rows t w' ≡ₚ row :: list_rows t w
     ∧ summary row ∈ summary <$> list_rows t w')
  ∧ (expiry row ≤ t → list_rows t w' ≡ₚ list_rows t w)
  ∧ now < expiry row.
Proof.
  intros Hp Hfresh w' row.
  destruct (upload_handler_cases env_BASE_URL now uuid req w)
    as [(Hnp & _)|[(_ & Hg & _)|(_ & _ & Hres)]];
    [done|rewrite Hfresh in Hg; by destruct Hg|].
  assert (Hrows : ∀ u, list_rows u w'
            ≡ₚ filter (λ r, expiry r > u) (uploads w) ++ filter (λ r, expiry r > u) [row]).
  { intros u. subst w'. rewrite Hres. unfold list_rows, Db.order_by_created_at_desc,
      Db.select. simpl. by rewrite merge_sort_Permutation, filter_app. }
  assert (Hold : ∀ u, list_rows u w ≡ₚ filter (λ r, expiry r > u) (uploads w)).
  { intros u. unfold list_rows, Db.order_by_created_at_desc, Db.select.
    by rewrite merge_sort_Permutation. }
  split; [|split].
  - intros Ht.
    assert (Hperm : list_rows t w' ≡ₚ row :: list_rows t w).
    { rewrite Hrows, Hold, filter_cons, filter_nil.
      destruct (decide (expiry row > t)); [|lia].
      by rewrite <- Permutation_cons_append. }
    split; [done|]. apply list_elem_of_fmap_2. rewrite Hperm. left.
  - intros Ht. rewrite Hrows, Hold, filter_cons, filter_nil.
    destruct (decide (expiry row > t)); [lia|]. by rewrite app_nil_r.
  - subst row. simpl. pose proof (expiryMinutes_range (body_expiry req)). lia.
Qed.

(** The text "hi" is uploaded at time 0 under the id "a" into the store that
    holds "k", and the list is made at time 10. *)
Lemma upload_then_list_witness :
  has_payload (text_request None)
  ∧ Db.get "a" (uploads boundary_world) = None
  ∧ summary (upload_row 0 "a" (text_request None))
    ∈ summary <$> list_rows 10
        (world (upload_handler None 0 "a" (text_request None) boundary_world)).
Proof.
  assert (Hp : has_payload (text_request None)) by (right; reflexivity).
  split; [exact Hp|]. split; [reflexivity|].
  destruct (upload_then_list None 0 10 "a" (text_request None) boundary_world
              Hp eq_refl) as (Hlive & _).
  destruct Hlive as [_ Hin]; [vm_compute; reflexivity|exact Hin].
Defined.

(** X8: when a request carries a file, its text field plays no part: the
    upload does the same whatever the text field holds, and the stored item
    is a file item whose content is the path of the stored blob. *)
Theorem upload_file_ignores_text
    (env_BASE_URL : option string) (now : Z) (uuid : string)
    (req : Request) (text' : option string) (w : World) :
  is_Some (req_file req) →
  let req' := mkRequest (header_x_api_key req) (query_api_key req)
                (cookie_auth_token req) (param_id req) text'
                (body_expiry req) (body_username req) (req_file req) in
  upload_handler env_BASE_URL now uuid req' w = upload_handler env_BASE_URL now uuid req w
  ∧ type (upload_row now uuid req) = file_type
  ∧ (path <$> req_file req) = Some (content (upload_row now uuid req)).
Proof.
  intros [f Hf] req'. subst req'.
  unfold upload_handler, upload_row. simpl. rewrite Hf. done.
Qed.

(** A request with the file "a.txt" and the text "hi". *)
Lemma upload_file_ignores_text_witness :
  is_Some (req_file (mkRequest None None None "" (Some "hi") None None
                       (Some (mkFile "uploads/u-a.txt" "a.txt" "text/plain"))))
  ∧ type (upload_row 0 "u"
            (mkRequest None None None "" (Some "hi") None None
               (Some (mkFile "uploads/u-a.txt" "a.txt" "text/plain")))) = file_type.
Proof.
  assert (Hf : is_Some (req_file (mkRequest None None None "" (Some "hi") None None
                       (Some (mkFile "uploads/u-a.txt" "a.txt" "text/plain")))))
    by (eexists; reflexivity).
  split; [exact Hf|].
  exact (proj1 (proj2 (upload_file_ignores_text None 0 "u" _ None boundary_world Hf))).
Defined.

(** ** What every route keeps *)

Lemma delete_handler_table io_fault req w :
  uploads (world (delete_handler io_fault req w))
  = (Db.delete (λ r, id r = param_id req) (uploads w)).1.
Proof.
  unfold delete_handler. destruct (Db.get _ _) eqn:E; simpl; [done|].
  symmetry. apply select_none_delete. by apply head_None in E.
Qed.

Lemma delete_handler_disk io_fault req w :
  disk (world (delete_handler io_fault req w))
  = unlink_all io_fault (unlinks (delete_handler io_fault req w)) (disk w).
Proof. unfold delete_handler. by destruct (Db.get _ _). Qed.

(** The table a request leaves: rows were removed from the old one, or the
    row built from the request was appended to it. *)
Lemma serve_table env_API_KEY env_BASE_URL io_fault rt now uuid req w :
  uploads (world (serve env_API_KEY env_BASE_URL io_fault rt now uuid req w))
    `sublist_of` uploads w
  ∨ (rt = Upload ∧ has_payload req ∧ Db.get uuid (uploads w) = None
     ∧ uploads (world (serve env_API_KEY env_BASE_URL io_fault rt now uuid req w))
       = uploads w ++ [upload_row now uuid req]).
Proof.
  unfold serve, guarded.
  destruct rt; try (destruct (authenticateParams env_API_KEY req); [|by left]).
  - destruct (upload_handler_cases env_BASE_URL now uuid req w)
      as [(_ & ->)|[(_ & _ & ->)|(? & ? & ->)]]; [by left|by left|by right].
  - by left.
  - left. rewrite delete_handler_table. apply sublist_filter.
  - left. unfold download_handler, res_download. by repeat case_match.
  - left. unfold cleanup_handler.
    pose proof (performCleanup_rows io_fault now w) as Hrows.
    destruct (performCleanup io_fault now w) as [w' [bs ls]]. simpl in *.
    rewrite Hrows. apply sublist_filter.
Qed.

Lemma serve_disk env_API_KEY env_BASE_URL io_fault rt now uuid req w :
  disk (world (serve env_API_KEY env_BASE_URL io_fault rt now uuid req w))
  = unlink_all io_fault
      (unlinks (serve env_API_KEY env_BASE_URL io_fault rt now uuid req w)) (disk w).
Proof.
  unfold serve, guarded.
  destruct rt; try (destruct (authenticateParams env_API_KEY req); [|done]).
  - by destruct (upload_handler_cases env_BASE_URL now uuid req w)
      as [(_ & ->)|[(_ & _ & ->)|(? & ? & ->)]].
  - done.
  - apply delete_handler_disk.
  - unfold download_handler, res_download. by repeat case_match.
  - unfold cleanup_handler.
    pose proof (performCleanup_disk io_fault now w) as Hdisk.
    by destruct (performCleanup io_fault now w) as [w' [bs ls]].
Qed.

Lemma uploaderName_bounds (u : option string) :
  uploaderName u ≠ "" ∧ (String.length (uploaderName u) ≤ 50)%nat.
Proof.
  unfold uploaderName.
  assert (Hne : Js.or_str u "web client" ≠ "").
  { unfold Js.or_str. destruct u as [s|]; [|done]. by case_bool_decide. }
  case_bool_decide as Hlen; [|split; [done|by apply Nat.nlt_ge]].
  pose proof (substring0_length 50 (Js.or_str u "web client")) as Hl.
  split; [|rewrite Hl; apply Nat.le_min_l].
  intros Hempty. rewrite Hempty in Hl.
  apply Nat.lt_le_incl, Nat.min_l in Hlen. rewrite Hlen in Hl. discriminate.
Qed.

Lemma upload_row_well_formed now uuid req :
  has_payload req → row_well_formed (upload_row now uuid req).
Proof.
  intros Hp. unfold row_well_formed. simpl.
  pose proof (expiryMinutes_range (body_expiry req)).
  pose proof (uploaderName_bounds (body_username req)) as [? ?].
  split; [lia|]. split.
  { destruct (req_file req); simpl; split; done. }
  split; [by eexists|]. split; [done|]. split; [done|].
  destruct Hp as [[f Hf]|Ht]; [rewrite Hf; intros; discriminate|].
  destruct (req_file req); [intros; discriminate|intros _].
  destruct (body_text req) as [s|]; [|done]. simpl in *.
  apply negb_true_iff, bool_decide_eq_false in Ht. done.
Qed.

(** X10: every route keeps the rows well formed: if each stored row expires
    between one minute and seven days after its creation, has a file name
    exactly when it is a file item, has a media type, an uploader name of 1 to
    50 characters and, as a text item, a text that is not empty, then so does
    each row stored after the request. *)
Theorem serve_keeps_rows_well_formed
    (env_API_KEY env_BASE_URL : option string) (io_fault : string → bool)
    (rt : Route) (now : Z) (uuid : string) (req : Request) (w : World) :
  Forall row_well_formed (uploads w) →
  Forall row_well_formed
    (uploads (world (serve env_API_KEY env_BASE_URL io_fault rt now uuid req w))).
Proof.
  intros Hw.
  destruct (serve_table env_API_KEY env_BASE_URL io_fault rt now uuid req w)
    as [Hsub|(_ & Hp & _ & ->)].
  - rewrite Forall_forall in Hw |- *. intros r Hr. apply Hw.
    by eapply elem_of_sublist.
  - apply Forall_app. split; [done|].
    apply Forall_singleton. by apply upload_row_well_formed.
Qed.

(** A text upload into the empty store. *)
Lemma serve_keeps_rows_well_formed_witness :
  Forall row_well_formed (uploads (mkWorld [] ∅))
  ∧ Forall row_well_formed
      (uploads (world (serve None None no_fault Upload 0 "a"
         (mkRequest (Some "default-insecure-key") None None "" (Some "hi")
            None None None) (mkWorld [] ∅)))).
Proof.
  assert (H0 : Forall row_well_formed (uploads (mkWorld [] ∅))) by constructor.
  split; [exact H0|].
  exact (serve_keeps_rows_well_formed None None no_fault Upload 0 "a" _ _ H0).
Defined.



(** ** Further properties of delete and cleanup *)

Lemma same_key_at_most_one (c : string) (l : list Row) :
  NoDup (id <$> l) → (∀ r, r ∈ l → id r = c) → (length l ≤ 1)%nat.
Proof.
  intros Hnd Hall. destruct l as [|a [|b l]]; simpl; [lia|lia|].
  rewrite !fmap_cons in Hnd. apply NoDup_cons in Hnd as [Hnot _].
  destruct Hnot. rewrite (Hall a), (Hall b); [left|right; left|left].
Qed.

Lemma get_filter_kept (P : Row → Prop) `{∀ r, Decision (P r)} i t r :
  Db.get i t = Some r → P r → Db.get i (filter P t) = Some r.
Proof.
  unfold Db.get, Db.select. induction t as [|a t IH]; [done|].
  rewrite !filter_cons. destruct (decide (id a = i)) as [Ha|Ha]; simpl.
  - intros [= ->] Hr. rewrite decide_True by done.
    rewrite filter_cons. by rewrite decide_True.
  - intros Hg Hr. destruct (decide (P a)); [|by apply IH].
    rewrite filter_cons, decide_False by done. by apply IH.
Qed.

Lemma get_filter_none (P : Row → Prop) `{∀ r, Decision (P r)} i t :
  Db.get i t = None → Db.get i (filter P t) = None.
Proof.
  rewrite !get_none. intros Hno r [_ Hr]%list_elem_of_filter. by apply Hno.
Qed.

(** X12: deleting an id that a row has answers 200, hands the blob of a file
    row to [fs.unlink] and nothing for a text row, leaves on disk what was
    there apart from that blob (which stays only if the unlink fails), and
    leaves a table in which the id is gone: a download of it is answered
    NotFound and no listing shows it, the other rows being listed as before;
    with [id] a key, the table has exactly one row less. *)
Theorem delete_handler_removes
    (io_fault : string → bool) (req : Request) (w : World) (row : Row) :
  Db.get (param_id req) (uploads w) = Some row →
  let res := delete_handler io_fault req w in
  response res = mkResponse 200 (JsonMessage "Item deleted")
  ∧ unlinks res = match type row with file_type => [content row] | text_type => [] end
  ∧ (∀ p, p ∈ disk (world res) ↔
       p ∈ disk w ∧ (type row = file_type → p = content row → io_fault p = true))
  ∧ (∀ t dreq, param_id dreq = param_id req →
       error_of (response (download_handler t dreq (world res))) = Some NotFound)
  ∧ (∀ t r, r ∈ list_rows t (world res) ↔ r ∈ list_rows t w ∧ id r ≠ param_id req)
  ∧ (NoDup (id <$> uploads w) →
       length (uploads w) = S (length (uploads (world res)))).
Proof.
  intros Hget res.
  assert (Hunl : unlinks res
            = match type row with file_type => [content row] | text_type => [] end).
  { subst res. unfold delete_handler. rewrite Hget. simpl. by destruct (type row). }
  split; [subst res; unfold delete_handler; by rewrite Hget|].
  split; [done|]. split; [|split; [|split]].
  - intros p. subst res. rewrite delete_handler_disk, unlink_all_elem, Hunl.
    destruct (type row); simpl.
    + rewrite list_elem_of_singleton. split.
      * intros [? Hf]. split; [done|]. intros _. exact Hf.
      * intros [? Hf]. split; [done|]. by apply Hf.
    + split; [intros [? _]; by split|intros [? _]; split; [done|]].
      by intros ?%elem_of_nil.
  - intros t dreq Hid. unfold download_handler. subst res.
    rewrite Hid, delete_handler_table, get_after_delete. done.
  - intros t r. rewrite !list_rows_elem. subst res.
    rewrite delete_handler_table, delete_rows. tauto.
  - intros Hnd. subst res. rewrite delete_handler_table.
    pose proof (delete_changes (λ r, id r = param_id req) (uploads w)) as Hlen.
    unfold Db.delete in *. simpl in *.
    assert (Hone : length (filter (λ r, id r = param_id req) (uploads w)) = 1%nat).
    { apply Nat.le_antisymm.
      - apply (same_key_at_most_one (param_id req)).
        + eapply sublist_NoDup; [exact Hnd|]. apply fmap_sublist, sublist_filter.
        + by intros r [? _]%list_elem_of_filter.
      - apply get_some in Hget as [Hin Hid].
        assert (Hr : row ∈ filter (λ r, id r = param_id req) (uploads w))
          by by apply list_elem_of_filter.
        revert Hr. generalize (filter (λ r, id r = param_id req) (uploads w)).
        intros [|a l] Hr; [by apply elem_of_nil in Hr|simpl; lia]. }
    lia.
Qed.

(** The file item "k" is deleted. *)
Lemma delete_handler_removes_witness :
  Db.get (param_id (item_request "k")) (uploads boundary_world) = Some boundary_row
  ∧ unlinks (delete_handler no_fault (item_request "k") boundary_world) = ["uploads/k"]
  ∧ length (uploads boundary_world)
    = S (length (uploads (world (delete_handler no_fault (item_request "k")
                                   boundary_world)))).
Proof.
  split; [reflexivity|].
  destruct (delete_handler_removes no_fault (item_request "k") boundary_world
              boundary_row eq_refl) as (_ & Hu & _ & _ & _ & Hlen).
  split; [exact Hu|]. apply Hlen. simpl. apply NoDup_singleton.
Defined.

Lemma filter_none (P : Row → Prop) `{∀ r, Decision (P r)} (t : list Row) :
  (∀ r, r ∈ t → ¬ P r) → filter P t = [].
Proof.
  induction t as [|a t IH]; [done|]. intros Hno. rewrite filter_cons.
  rewrite decide_False by (apply Hno; left). apply IH. intros r Hr. apply Hno. by right.
Qed.

Lemma world_eq (a b : World) : uploads a = uploads b → disk a = disk b → a = b.
Proof. destruct a, b. simpl. by intros -> ->. Qed.

Lemma performCleanup_blob_elem io_fault now w p :
  p ∈ (performCleanup io_fault now w).2.1 ↔
    ∃ r, r ∈ uploads w ∧ expiry r < now ∧ type r = file_type ∧ content r = p.
Proof.
  rewrite performCleanup_blobs, list_elem_of_fmap. unfold Db.select. split.
  - intros (r & -> & [? [? ?]%list_elem_of_filter]%list_elem_of_filter). eauto.
  - intros (r & ? & ? & ? & <-). exists r. split; [done|].
    apply list_elem_of_filter. split; [done|]. by apply list_elem_of_filter.
Qed.

Lemma split_count (now1 now2 : Z) (t : list Row) :
  now1 ≤ now2 →
  (length (filter (λ r, (expiry r < now1)%Z) t)
   + length (filter (λ r, (expiry r < now2)%Z) (filter (λ r, ¬ (expiry r < now1)%Z) t))
   = length (filter (λ r, (expiry r < now2)%Z) t))%nat.
Proof.
  intros Hle. induction t as [|a t IH]; [done|].
  rewrite !(filter_cons _ a t).
  destruct (decide (expiry a < now1)), (decide (¬ expiry a < now1)),
    (decide (expiry a < now2)); try lia; try tauto;
    rewrite ?filter_cons; repeat case_decide; simpl; try lia; tauto.
Qed.

(** X14: a cleanup at [now1] followed by one at a later time [now2] leaves
    the same table and the same disk as a single cleanup at [now2], unlinks
    the same blobs and reports in total the same number of rows; and a
    cleanup at the earlier time after one at the later time does nothing. *)
Theorem performCleanup_in_two_sweeps
    (io_fault : string → bool) (now1 now2 : Z) (w : World) :
  now1 ≤ now2 →
  let first := performCleanup io_fault now1 w in
  let second := performCleanup io_fault now2 first.1 in
  let direct := performCleanup io_fault now2 w in
  second.1 = direct.1
  ∧ (reported_changes first.2.2 + reported_changes second.2.2
     = reported_changes direct.2.2)%nat
  ∧ (∀ p, p ∈ direct.2.1 ↔ p ∈ first.2.1 ∨ p ∈ second.2.1)
  ∧ performCleanup io_fault now1 direct.1 = (direct.1, ([], [])).
Proof.
  intros Hle first second direct.
  assert (Hblobs : ∀ p, p ∈ direct.2.1 ↔ p ∈ first.2.1 ∨ p ∈ second.2.1).
  { intros p. subst first second direct. rewrite !performCleanup_blob_elem. split.
    - intros (r & Hr & He & Hf & Hc).
      destruct (decide (expiry r < now1)) as [H1|H1]; [left; by eauto|].
      right. exists r. rewrite performCleanup_rows. split; [by apply delete_rows|done].
    - intros [(r & Hr & He & Hf & Hc)|(r & Hr & He & Hf & Hc)].
      + exists r. split; [done|]. split; [lia|done].
      + rewrite performCleanup_rows in Hr. apply delete_rows in Hr as [Hr _]. eauto. }
  split; [|split; [|split; [done|]]].
  - apply world_eq.
    + subst first second direct. rewrite !performCleanup_rows. unfold Db.delete; simpl.
      apply list_filter_filter_l. intros r. lia.
    + apply set_eq. intros p.
      assert (Hd : p ∈ disk first.1 ↔ p ∈ disk w ∧ (p ∈ first.2.1 → io_fault p = true)).
      { subst first. by rewrite performCleanup_disk, unlink_all_elem. }
      assert (Hs : p ∈ disk second.1 ↔
                p ∈ disk first.1 ∧ (p ∈ second.2.1 → io_fault p = true)).
      { subst second. by rewrite performCleanup_disk, unlink_all_elem. }
      assert (Hdir : p ∈ disk direct.1 ↔
                p ∈ disk w ∧ (p ∈ direct.2.1 → io_fault p = true)).
      { subst direct. by rewrite performCleanup_disk, unlink_all_elem. }
      rewrite Hs, Hd, Hdir. specialize (Hblobs p). tauto.
  - subst first second direct. rewrite !performCleanup_changes, performCleanup_rows.
    unfold Db.select, Db.delete; simpl. by apply split_count.
  - unfold performCleanup at 1.
    assert (Hnone : Db.select (λ r, expiry r < now1) (uploads direct.1) = []).
    { apply filter_none. intros r Hr. subst direct.
      rewrite performCleanup_rows in Hr. apply delete_rows in Hr as [_ ?]. lia. }
    by rewrite Hnone.
Qed.

(** A cleanup at time 50, then one at time 200, of the store holding "k",
    which expires at 100. *)
Lemma performCleanup_in_two_sweeps_witness :
  50 ≤ 200
  ∧ (performCleanup no_fault 200 (performCleanup no_fault 50 boundary_world).1).1
    = (performCleanup no_fault 200 boundary_world).1.
Proof.
  assert (Hle : 50 ≤ 200) by lia.
  split; [exact Hle|].
  exact (proj1 (performCleanup_in_two_sweeps no_fault 50 200 boundary_world Hle)).
Defined.

(** ** Blobs and the rows that refer to them *)

Lemma blobs_elem (t : list Row) (p : string) :
  p ∈ blobs t ↔ ∃ r, r ∈ t ∧ type r = file_type ∧ content r = p.
Proof.
  unfold blobs. rewrite list_elem_of_fmap. split.
  - intros (r & -> & [? ?]%list_elem_of_filter). eauto.
  - intros (r & ? & ? & <-). exists r. split; [done|]. by apply list_elem_of_filter.
Qed.

Lemma blobs_app (t1 t2 : list Row) : blobs (t1 ++ t2) = blobs t1 ++ blobs t2.
Proof. unfold blobs. by rewrite filter_app, fmap_app. Qed.

Lemma blobs_filter_sublist (P : Row → Prop) `{∀ r, Decision (P r)} (t : list Row) :
  blobs (filter P t) `sublist_of` blobs t.
Proof.
  unfold blobs. apply fmap_sublist.
  induction t as [|a t IH]; [done|]. rewrite !(filter_cons _ a).
  destruct (decide (P a)).
  - rewrite filter_cons. destruct (decide (type a = file_type)).
    + by apply sublist_skip.
    + done.
  - destruct (decide (type a = file_type)); [by apply sublist_cons|done].
Qed.

(** Two file rows of a table whose blobs are distinct are the same row when
    they refer to the same blob. *)
Lemma blobs_NoDup_inj (t : list Row) (a b : Row) :
  NoDup (blobs t) → a ∈ t → b ∈ t →
  type a = file_type → type b = file_type → content a = content b → a = b.
Proof.
  unfold blobs. induction t as [|c t IH]; intros Hnd Ha Hb Hfa Hfb Hc.
  - by apply elem_of_nil in Ha.
  - rewrite filter_cons in Hnd.
    assert (Hin : ∀ r, r ∈ t → type r = file_type →
              content r ∈ content <$> filter (λ r, type r = file_type) t).
    { intros r Hr Hf. apply list_elem_of_fmap_2. by apply list_elem_of_filter. }
    apply elem_of_cons in Ha as [->|Ha], Hb as [->|Hb]; [done|..].
    + rewrite decide_True in Hnd by done. rewrite fmap_cons in Hnd.
      apply NoDup_cons in Hnd as [Hnot _]. destruct Hnot. rewrite Hc. by apply Hin.
    + rewrite decide_True in Hnd by done. rewrite fmap_cons in Hnd.
      apply NoDup_cons in Hnd as [Hnot _]. destruct Hnot. rewrite <- Hc. by apply Hin.
    + apply IH; try done. destruct (decide (type c = file_type)); [|done].
      rewrite fmap_cons in Hnd. by apply NoDup_cons in Hnd as [_ ?].
Qed.

(** Removing the rows that satisfy [P], and unlinking blobs of such rows only,
    keeps the blobs intact. *)
Lemma removal_keeps_blobs_intact (io_fault : string → bool)
    (P : Row → Prop) `{∀ r, Decision (P r)} (w w' : World) (ps : list string) :
  blobs_intact w →
  uploads w' = filter (λ r, ¬ P r) (uploads w) →
  disk w' = unlink_all io_fault ps (disk w) →
  (∀ p, p ∈ ps → ∃ r, r ∈ uploads w ∧ P r ∧ type r = file_type ∧ content r = p) →
  blobs_intact w'.
Proof.
  intros [Hnd Hdisk] Hrows Hd Hps. unfold blobs_intact. rewrite Hrows, Hd. split.
  - eapply sublist_NoDup; [exact Hnd|]. apply blobs_filter_sublist.
  - intros p Hp. apply unlink_all_elem. split.
    + apply Hdisk. eapply elem_of_sublist; [exact Hp|]. apply blobs_filter_sublist.
    + intros (r' & Hr' & HP & Hf' & Hc')%Hps.
      apply blobs_elem in Hp as (r & [HnP Hr]%list_elem_of_filter & Hf & Hc).
      assert (r = r') by (apply (blobs_NoDup_inj (uploads w)); congruence).
      by subst r'.
Qed.

(** X13: a cleanup at time [now] is not seen by the listings and downloads
    made at a time [t] from [now] on: every such listing shows the same rows in
    the same order as without the cleanup, and, no two file rows sharing a
    blob, every such download that was not answered Expired is answered the
    same. *)
Theorem performCleanup_unseen_by_live
    (io_fault : string → bool) (now t : Z) (dreq : Request) (w : World) :
  now ≤ t →
  let w' := (performCleanup io_fault now w).1 in
  list_rows t w' = list_rows t w
  ∧ (NoDup (blobs (uploads w)) →
     error_of (response (download_handler t dreq w)) ≠ Some Expired →
     response (download_handler t dreq w') = response (download_handler t dreq w)).
Proof.
  intros Ht w'.
  assert (Hrows : uploads w' = filter (λ r, ¬ expiry r < now) (uploads w)).
  { subst w'. by rewrite performCleanup_rows. }
  split.
  - unfold list_rows, Db.select. rewrite Hrows. f_equal.
    apply list_filter_filter_l. intros r. lia.
  - intros Hnd. unfold download_handler. rewrite Hrows.
    destruct (Db.get (param_id dreq) (uploads w)) as [row|] eqn:Hget.
    + case_bool_decide as Hexp; [done|]. intros _.
      rewrite (get_filter_kept (λ r, ¬ expiry r < now) _ _ row Hget) by lia.
      rewrite (bool_decide_eq_false_2 _ Hexp).
      case_bool_decide as Hfile; [|done]. unfold res_download.
      assert (Hsame : content row ∈ disk w' ↔ content row ∈ disk w).
      { subst w'. rewrite performCleanup_disk, unlink_all_elem. split; [tauto|].
        intros Hon. split; [done|].
        intros (r' & Hr' & Hexp' & Hfile' & Hc')%performCleanup_blob_elem.
        apply get_some in Hget as [Hin _].
        assert (r' = row) by by apply (blobs_NoDup_inj (uploads w)).
        subst r'. lia. }
      destruct (decide (content row ∈ disk w)) as [Hon|Hoff].
      * rewrite !bool_decide_eq_true_2 by tauto. done.
      * rewrite !bool_decide_eq_false_2 by tauto. done.
    + intros _. by rewrite get_filter_none.
Qed.

(** A cleanup at time 80 removes the item "o" and its blob; the listing at
    time 90 shows the item "k" with or without it, and the download of "k" is
    served the same. *)
Lemma performCleanup_unseen_by_live_witness :
  80 ≤ 90
  ∧ (id <$> uploads mixed_world) = ["o"; "k"]
  ∧ (id <$> uploads (performCleanup no_fault 80 mixed_world).1) = ["k"]
  ∧ (id <$> list_rows 90 mixed_world) = ["k"]
  ∧ list_rows 90 (performCleanup no_fault 80 mixed_world).1 = list_rows 90 mixed_world
  ∧ response (download_handler 90 (item_request "k")
                (performCleanup no_fault 80 mixed_world).1)
    = response (download_handler 90 (item_request "k") mixed_world).
Proof.
  assert (Ht : 80 ≤ 90) by lia.
  split; [exact Ht|]. split; [reflexivity|]. split; [reflexivity|].
  split; [reflexivity|].
  destruct (performCleanup_unseen_by_live no_fault 80 90 (item_request "k")
              mixed_world Ht) as [Hlist Hdl].
  split; [exact Hlist|]. apply Hdl.
  - repeat constructor; simpl; [|by intros ?%elem_of_nil].
    intros [?|?%elem_of_nil]%elem_of_cons; [discriminate|done].
  - vm_compute. discriminate.
Defined.

(** X15: every route keeps the blobs intact: if no two file rows share a blob
    and every blob a file row refers to is on disk, the same holds after the
    request, whether the unlinks succeed or fail, provided the blob of an
    uploaded file is on disk and no stored row refers to it yet. *)
Theorem serve_keeps_blobs_intact
    (env_API_KEY env_BASE_URL : option string) (io_fault : string → bool)
    (rt : Route) (now : Z) (uuid : string) (req : Request) (w : World) :
  blobs_intact w →
  (rt = Upload → ∀ f, req_file req = Some f →
     path f ∈ disk w ∧ path f ∉ blobs (uploads w)) →
  blobs_intact (world (serve env_API_KEY env_BASE_URL io_fault rt now uuid req w)).
Proof.
  intros Hw Hnew. unfold serve, guarded.
  destruct rt; try (destruct (authenticateParams env_API_KEY req); [|done]).
  - destruct (upload_handler_cases env_BASE_URL now uuid req w)
      as [(_ & ->)|[(_ & _ & ->)|(_ & _ & ->)]]; [done|done|].
    destruct Hw as [Hnd Hdisk]. unfold blobs_intact. simpl. rewrite blobs_app.
    assert (Hrow : blobs [upload_row now uuid req]
              = match req_file req with Some f => [path f] | None => [] end).
    { unfold blobs, upload_row. rewrite filter_cons, filter_nil. simpl.
      by destruct (req_file req). }
    rewrite Hrow. destruct (req_file req) as [f|] eqn:Hf.
    + destruct (Hnew eq_refl f eq_refl) as [Hon Hfree]. split.
      * apply NoDup_app. split; [done|]. split; [|apply NoDup_singleton].
        intros p Hp Heq%list_elem_of_singleton. subst p. exact (Hfree Hp).
      * intros p [?|Heq%list_elem_of_singleton]%elem_of_app; [auto|by subst p].
    + rewrite app_nil_r. by split.
  - done.
  - apply (removal_keeps_blobs_intact io_fault (λ r, id r = param_id req) w _
             (unlinks (delete_handler io_fault req w))); [done|..].
    + apply delete_handler_table.
    + apply delete_handler_disk.
    + unfold delete_handler. intros p.
      destruct (Db.get (param_id req) (uploads w)) as [row|] eqn:Hget; simpl.
      * apply get_some in Hget as [Hin Hid].
        case_bool_decide; [|by intros ?%elem_of_nil].
        intros ->%list_elem_of_singleton. by exists row.
      * by intros ?%elem_of_nil.
  - unfold download_handler, res_download. by repeat case_match.
  - unfold cleanup_handler.
    pose proof (performCleanup_rows io_fault now w) as Hrows.
    pose proof (performCleanup_disk io_fault now w) as Hdisk.
    pose proof (λ p, proj1 (performCleanup_blob_elem io_fault now w p)) as Hblob.
    destruct (performCleanup io_fault now w) as [w' [bs ls]]. simpl in *.
    by apply (removal_keeps_blobs_intact io_fault (λ r, expiry r < now) w w' bs).
Qed.

(** The file item "k" is deleted while the unlink fails. *)
Lemma serve_keeps_blobs_intact_witness :
  blobs_intact boundary_world
  ∧ blobs_intact
      (world (serve None None (λ _, true) Delete 0 "u"
         (mkRequest (Some "default-insecure-key") None None "k" None None None None)
         boundary_world)).
Proof.
  assert (H0 : blobs_intact boundary_world).
  { split; [apply NoDup_singleton|].
    intros p ->%list_elem_of_singleton. vm_compute. reflexivity. }
  split; [exact H0|].
  apply serve_keeps_blobs_intact; [exact H0|discriminate].
Defined.

(** ** Further properties of the TTL field and of the stored names *)

Lemma append_cons c s t : (String c s +:+ t)%string = String c (s +:+ t)%string.
Proof. reflexivity. Qed.

Lemma append_nil t : ("" +:+ t)%string = t.
Proof. reflexivity. Qed.

Lemma digits_uint_then d : ∀ acc sfx,
  stops sfx →
  Js.digits 10 acc true (NilEmpty.string_of_uint d +:+ sfx)%string = Some (horner acc d).
Proof.
  induction d; intros acc sfx Hs;
    [ simpl NilEmpty.string_of_uint; rewrite append_nil;
      replace (horner acc Nil) with acc by (unfold horner; simpl; lia);
      destruct sfx as [|c r]; [done|]; destruct Hs as [Hc _]; simpl; by rewrite Hc |..];
    rewrite horner_cons by done;
    simpl NilEmpty.string_of_uint; rewrite append_cons;
    cbn [Js.digits]; eval_digit; cbv iota beta;
    rewrite IHd by done; reflexivity.
Qed.

Lemma skip_space_prefix ws s :
  Js.skip_space ws = "" → Js.skip_space (ws +:+ s)%string = Js.skip_space s.
Proof.
  induction ws as [|c ws IH]; [done|]. rewrite append_cons. simpl.
  destruct (Js.is_space c); [exact IH|done].
Qed.

Lemma skip_space_uint_then d sfx :
  d ≠ Nil →
  Js.skip_space (NilEmpty.string_of_uint d +:+ sfx)%string
  = (NilEmpty.string_of_uint d +:+ sfx)%string.
Proof. destruct d; [done|..]; reflexivity. Qed.

Lemma sign_uint_then d sfx :
  d ≠ Nil →
  Js.sign_and_rest (NilEmpty.string_of_uint d +:+ sfx)%string
  = (1, (NilEmpty.string_of_uint d +:+ sfx)%string).
Proof. destruct d; [done|..]; reflexivity. Qed.

Lemma radix_uint_then d sfx :
  d ≠ Nil → stops sfx →
  Js.radix_and_rest (NilEmpty.string_of_uint d +:+ sfx)%string
  = (10, (NilEmpty.string_of_uint d +:+ sfx)%string).
Proof.
  intros Hd Hs. destruct d as [|d|d|d|d|d|d|d|d|d|d]; try done.
  destruct d; try reflexivity.
  simpl NilEmpty.string_of_uint. rewrite append_cons, append_nil.
  destruct sfx as [|c r]; [done|]. destruct Hs as (_ & Hx & HX).
  unfold Js.radix_and_rest.
  destruct c as [[] [] [] [] [] [] [] []]; try reflexivity; done.
Qed.

Lemma digits_uint_unseen_then d sfx :
  d ≠ Nil → stops sfx →
  Js.digits 10 0 false (NilEmpty.string_of_uint d +:+ sfx)%string = Some (horner 0 d).
Proof.
  intros Hd Hs. rewrite (horner_cons 0 d Hd).
  destruct d; [done|..]; simpl NilEmpty.string_of_uint; rewrite append_cons;
    cbn [Js.digits]; eval_digit; cbv iota beta; by apply digits_uint_then.
Qed.

Lemma decimal_digits (t : Z) :
  decimal t =
    match t with
    | 0 => NilEmpty.string_of_uint (D0 Nil)
    | Z.pos p => NilEmpty.string_of_uint (Pos.to_uint p)
    | Z.neg p => String "-" (NilEmpty.string_of_uint (Pos.to_uint p))
    end.
Proof.
  destruct t as [|p|p]; [reflexivity|..];
    unfold decimal, NilZero.string_of_int, NilZero.string_of_uint; simpl Z.to_int;
    pose proof (Unsigned.to_uint_nonnil p); by destruct (Pos.to_uint p).
Qed.

Lemma parseInt_decimal_then (ws sfx : string) (t : Z) :
  Js.skip_space ws = "" → stops sfx →
  Js.parseInt_string (ws +:+ (decimal t +:+ sfx))%string = Some t.
Proof.
  intros Hws Hs. unfold Js.parseInt_string. rewrite skip_space_prefix by done.
  rewrite decimal_digits. destruct t as [|p|p].
  - rewrite skip_space_uint_then, sign_uint_then, radix_uint_then,
      digits_uint_unseen_then by done. reflexivity.
  - pose proof (Unsigned.to_uint_nonnil p) as Hp.
    rewrite skip_space_uint_then, sign_uint_then, radix_uint_then,
      digits_uint_unseen_then by done. rewrite horner_to_uint. f_equal; lia.
  - pose proof (Unsigned.to_uint_nonnil p) as Hp.
    rewrite append_cons.
    change (Js.skip_space (String "-" ?r)) with (String "-" r).
    change (Js.sign_and_rest (String "-" ?r)) with (-1, r).
    cbv beta iota. rewrite radix_uint_then, digits_uint_unseen_then by done.
    rewrite horner_to_uint. f_equal; lia.
Qed.

(** X16: the TTL field is read leniently: white space before the number and
    any text after it that does not start with a digit (nor with the [x] of a
    hexadecimal prefix) are ignored, so such a field gives the same TTL as
    the number alone. *)
Theorem expiryMinutes_lenient (ws sfx : string) (t : Z) :
  Js.skip_space ws = "" →
  stops sfx →
  Js.parseInt (Some (ws +:+ (decimal t +:+ sfx))%string) = Some t
  ∧ expiryMinutes (Some (ws +:+ (decimal t +:+ sfx))%string)
    = expiryMinutes (Some (decimal t)).
Proof.
  intros Hws Hs. split; [by apply parseInt_decimal_then|].
  rewrite !expiryMinutes_parsed. simpl Js.parseInt.
  by rewrite parseInt_decimal_then, parseInt_decimal.
Qed.

(** The field " 90 minutes". *)
Lemma expiryMinutes_lenient_witness :
  Js.skip_space " " = ""
  ∧ stops " minutes"
  ∧ expiryMinutes (Some " 90 minutes") = 90.
Proof.
  assert (Hs : stops " minutes") by (repeat split; discriminate).
  split; [reflexivity|]. split; [exact Hs|].
  exact (eq_trans (proj2 (expiryMinutes_lenient " " " minutes" 90 eq_refl Hs)) eq_refl).
Defined.

Lemma append_inj_length (a b x y : string) :
  String.length a = String.length b →
  (a +:+ x)%string = (b +:+ y)%string → a = b ∧ x = y.
Proof.
  revert b. induction a as [|c a IH]; intros [|d b] Hlen; try done.
  rewrite !append_cons. intros [= -> Heq]. simpl in Hlen.
  destruct (IH b) as [-> ->]; [congruence|done|done].
Qed.

(** X17: the name under which an uploaded file is stored determines the uuid
    and the original name it was built from, uuids having one length: two
    uploads whose uuids differ are stored under different names, whatever the
    original names are. *)
Theorem storage_filename_inj (uuid1 uuid2 name1 name2 : string) :
  String.length uuid1 = String.length uuid2 →
  storage_filename uuid1 name1 = storage_filename uuid2 name2 →
  uuid1 = uuid2 ∧ name1 = name2.
Proof.
  unfold storage_filename. intros Hlen Heq.
  destruct (append_inj_length _ _ _ _ Hlen Heq) as [-> Hrest].
  split; [done|]. rewrite !append_cons, !append_nil in Hrest. congruence.
Qed.

(** Two stored names built from uuids of four characters. *)
Lemma storage_filename_inj_witness :
  String.length "ab12" = String.length "ab12"
  ∧ storage_filename "ab12" "a-b.txt" = storage_filename "ab12" "a-b.txt"
  ∧ "a-b.txt" = "a-b.txt".
Proof.
  split; [reflexivity|]. split; [reflexivity|].
  exact (proj2 (storage_filename_inj "ab12" "ab12" "a-b.txt" "a-b.txt" eq_refl eq_refl)).
Defined.

(** ** What happens to live rows *)

(** X18: a row that has not expired at the time of a request stays in the
    table whatever the request is, unless the request is an authenticated
    delete of the id of that row. *)
Theorem serve_keeps_live_row
    (env_API_KEY env_BASE_URL : option string) (io_fault : string → bool)
    (rt : Route) (now : Z) (uuid : string) (req : Request) (w : World) (r : Row) :
  r ∈ uploads w →
  now ≤ expiry r →
  ¬ (rt = Delete ∧ param_id req = id r ∧ authenticateParams env_API_KEY req = true) →
  r ∈ uploads (world (serve env_API_KEY env_BASE_URL io_fault rt now uuid req w)).
Proof.
  intros Hr Hlive Hnot. unfold serve, guarded.
  destruct rt; try (destruct (authenticateParams env_API_KEY req) eqn:Hauth; [|done]).
  - destruct (upload_handler_cases env_BASE_URL now uuid req w)
      as [(_ & ->)|[(_ & _ & ->)|(_ & _ & ->)]]; [done|done|].
    simpl. apply elem_of_app. by left.
  - done.
  - rewrite delete_handler_table. apply delete_rows. split; [done|].
    intros Hid. by apply Hnot.
  - unfold download_handler, res_download. by repeat case_match.
  - unfold cleanup_handler.
    pose proof (performCleanup_rows io_fault now w) as Hrows.
    destruct (performCleanup io_fault now w) as [w' [bs ls]]. simpl in *.
    rewrite Hrows. apply delete_rows. split; [done|lia].
Qed.

(** The item "k", which expires at 100, and a cleanup at time 100. *)
Lemma serve_keeps_live_row_witness :
  boundary_row ∈ uploads boundary_world
  ∧ 100 ≤ expiry boundary_row
  ∧ boundary_row ∈
      uploads (world (serve None None no_fault Cleanup 100 "u"
         (mkRequest (Some "default-insecure-key") None None "" None None None None)
         boundary_world)).
Proof.
  assert (Hin : boundary_row ∈ uploads boundary_world) by (simpl; left).
  assert (Hlive : 100 ≤ expiry boundary_row) by (simpl; lia).
  split; [exact Hin|]. split; [exact Hlive|].
  apply serve_keeps_live_row; [exact Hin|exact Hlive|].
  intros [Hrt _]. discriminate.
Defined.

(** X19: an item uploaded under a fresh id at a time later than the creation
    of every stored row is the first row of every listing made before its
    expiry. *)
Theorem upload_is_listed_first
    (env_BASE_URL : option string) (now t : Z) (uuid : string)
    (req : Request) (w : World) :
  has_payload req →
  Db.get uuid (uploads w) = None →
  (∀ r, r ∈ uploads w → created_at r < now) →
  t < expiry (upload_row now uuid req) →
  head (list_rows t (world (upload_handler env_BASE_URL now uuid req w)))
  = Some (upload_row now uuid req).
Proof.
  intros Hp Hfresh Hold Ht.
  destruct (upload_handler_cases env_BASE_URL now uuid req w)
    as [(Hnp & _)|[(_ & Hg & _)|(_ & _ & ->)]];
    [done|rewrite Hfresh in Hg; by destruct Hg|].
  simpl world. set (row := upload_row now uuid req) in *.
  set (w' := mkWorld (uploads w ++ [row]) (disk w)).
  assert (Hin : row ∈ list_rows t w').
  { apply list_rows_elem. split; [|lia]. simpl. apply elem_of_app. right. left. }
  assert (Hsorted : StronglySorted Db.newer_first (list_rows t w')).
  { apply Sorted_StronglySorted; [apply _|]. apply (Sorted_merge_sort Db.newer_first). }
  destruct (list_rows t w') as [|h l] eqn:El; [by apply elem_of_nil in Hin|].
  simpl. f_equal.
  apply elem_of_cons in Hin as [->|Hl]; [done|].
  apply StronglySorted_cons in Hsorted as [Hall _].
  rewrite Forall_forall in Hall. specialize (Hall row Hl). unfold Db.newer_first in Hall.
  assert (Hh : h ∈ list_rows t w') by (rewrite El; left).
  apply list_rows_elem in Hh as [Hh _]. simpl in Hh.
  apply elem_of_app in Hh as [Hh|Hh%list_elem_of_singleton]; [|done].
  specialize (Hold h Hh). subst row. simpl in Hall. lia.
Qed.

(** The text "hi" is uploaded at time 50 under the id "a" into the store that
    holds "k", created at time 40, and the list is made at time 60. *)
Lemma upload_is_listed_first_witness :
  has_payload (text_request None)
  ∧ Db.get "a" (uploads boundary_world) = None
  ∧ (id <$> head (list_rows 60
             (world (upload_handler None 50 "a" (text_request None) boundary_world))))
    = Some "a".
Proof.
  assert (Hp : has_payload (text_request None)) by (right; reflexivity).
  split; [exact Hp|]. split; [reflexivity|].
  rewrite (upload_is_listed_first None 50 60 "a" (text_request None) boundary_world
             Hp eq_refl).
  - reflexivity.
  - intros r Hr. apply list_elem_of_singleton in Hr. subst r. simpl. lia.
  - vm_compute. reflexivity.
Defined.

(** ** The handlers on every request *)

Lemma expiryMinutes_val_field (e : option string) :
  expiryMinutes_val (Val.of_field e) = Some (expiryMinutes e).
Proof. by destruct e. Qed.

Lemma uploaderName_val_field (u : option string) :
  uploaderName_val (Val.of_field u) = Some (uploaderName u).
Proof.
  unfold uploaderName_val, uploaderName, Val.or, Js.or_str.
  destruct u as [s|]; simpl; [|done]. by case_bool_decide.
Qed.

Lemma upload_row_val_field now uuid req :
  has_payload req →
  upload_row_val now uuid (req_file req)
    (mkBody (Val.of_field (body_text req)) (Val.of_field (body_expiry req))
            (Val.of_field (body_username req)))
  = Some (upload_row now uuid req).
Proof.
  intros Hp. unfold upload_row_val. simpl.
  rewrite expiryMinutes_val_field, uploaderName_val_field. unfold upload_row.
  do 2 f_equal. destruct (req_file req); [done|].
  by destruct (body_text req).
Qed.

(** On a request whose body was parsed and whose fields are strings or
    absent, the handler on every request is the handler on such requests. *)
Lemma upload_handler_val_of_request env_BASE_URL now uuid req w :
  upload_handler_val env_BASE_URL now uuid (raw_of req) w
  = upload_handler env_BASE_URL now uuid req w.
Proof.
  unfold upload_handler_val, upload_handler, raw_of.
  cbn [raw_body raw_file rb_text].
  assert (Ht : Val.truthy (Val.of_field (body_text req)) = Js.truthy (body_text req))
    by by destruct (body_text req).
  rewrite Ht. destruct (negb _ && negb _) eqn:Hg; [done|].
  apply has_payload_guard in Hg. by rewrite upload_row_val_field.
Qed.

Lemma authenticate_of_request env_API_KEY req :
  authenticate env_API_KEY (raw_of req) = authenticateParams env_API_KEY req.
Proof.
  unfold authenticate, authenticateParams, Val.or, Js.or. simpl.
  destruct (header_x_api_key req) as [h|], (query_api_key req) as [q|],
    (cookie_auth_token req) as [c|]; simpl;
    repeat (case_bool_decide; simpl); try done; congruence.
Qed.

(** The routes with all their middleware are, on such a request, the routes
    above in the world multer leaves. *)
Lemma route_of_request env_API_KEY env_BASE_URL io_fault rt now uuid req w :
  route env_API_KEY env_BASE_URL io_fault rt now uuid (raw_of req) w
  = serve env_API_KEY env_BASE_URL io_fault rt now uuid req
      (match rt with Upload => multer (req_file req) w | _ => w end).
Proof.
  unfold route, serve, guard, guarded. rewrite authenticate_of_request.
  destruct rt; try done.
  by rewrite upload_handler_val_of_request.
Qed.

(** The ways an upload ends. *)
Lemma upload_handler_val_cases env_BASE_URL now uuid raw w :
  (raw_body raw = None
   ∧ upload_handler_val env_BASE_URL now uuid raw w = thrown w)
  ∨ (∃ b, raw_body raw = Some b
     ∧ raw_file raw = None ∧ Val.truthy (rb_text b) = false
     ∧ upload_handler_val env_BASE_URL now uuid raw w
       = reply 400 (JsonError "No file or text provided") w)
  ∨ (∃ b, raw_body raw = Some b
     ∧ (is_Some (raw_file raw) ∨ Val.truthy (rb_text b) = true)
     ∧ upload_row_val now uuid (raw_file raw) b = None
     ∧ upload_handler_val env_BASE_URL now uuid raw w = thrown w)
  ∨ (∃ b r, raw_body raw = Some b
     ∧ (is_Some (raw_file raw) ∨ Val.truthy (rb_text b) = true)
     ∧ upload_row_val now uuid (raw_file raw) b = Some r
     ∧ is_Some (Db.get uuid (uploads w))
     ∧ upload_handler_val env_BASE_URL now uuid raw w
       = reply 500 (JsonError "Database error") w)
  ∨ (∃ b r, raw_body raw = Some b
     ∧ (is_Some (raw_file raw) ∨ Val.truthy (rb_text b) = true)
     ∧ upload_row_val now uuid (raw_file raw) b = Some r
     ∧ Db.get uuid (uploads w) = None
     ∧ upload_handler_val env_BASE_URL now uuid raw w
       = reply 200 (JsonUploaded uuid (download_url env_BASE_URL uuid) (expiry r))
           (mkWorld (uploads w ++ [r]) (disk w))).
Proof.
  unfold upload_handler_val.
  destruct (raw_body raw) as [b|]; [right|by left].
  destruct (negb _ && negb _) eqn:Hg.
  - left. exists b. apply andb_true_iff in Hg as [Hf Ht].
    apply negb_true_iff in Hf, Ht. apply bool_decide_eq_false in Hf.
    split; [done|]. split; [|done].
    destruct (raw_file raw); [|done]. destruct Hf. by eexists.
  - right.
    assert (Hp : is_Some (raw_file raw) ∨ Val.truthy (rb_text b) = true).
    { apply andb_false_iff in Hg as [Hf|Ht].
      - left. by apply negb_false_iff, bool_decide_eq_true in Hf.
      - right. by apply negb_false_iff in Ht. }
    destruct (upload_row_val now uuid (raw_file raw) b) as [r|] eqn:Hrow;
      [right|left; by exists b].
    assert (Hid : id r = uuid).
    { unfold upload_row_val in Hrow. repeat case_match; by simplify_eq. }
    unfold Db.insert. rewrite Hid.
    destruct (Db.get uuid (uploads w)) eqn:Hget; [left|right]; exists b, r; by eauto.
Qed.

Lemma upload_handler_val_frame env_BASE_URL now uuid raw w :
  unlinks (upload_handler_val env_BASE_URL now uuid raw w) = []
  ∧ disk (world (upload_handler_val env_BASE_URL now uuid raw w)) = disk w
  ∧ error_of (response (upload_handler_val env_BASE_URL now uuid raw w))
    ≠ Some Unauthorized.
Proof.
  destruct (upload_handler_val_cases env_BASE_URL now uuid raw w)
    as [(_ & ->)|[(b & _ & _ & _ & ->)|[(b & _ & _ & _ & ->)
       |[(b & r & _ & _ & _ & _ & ->)|(b & r & _ & _ & _ & _ & ->)]]]]; done.
Qed.

(** C3 (code defect): the TTL field "0" is not clamped to 1 minute as the
    fields "-1" and "1" are: [parseInt("0")] is falsy, so [|| 60] replaces it
    before the test [< 1] is reached, and the item stored by the upload
    expires 60 minutes after its creation. *)
Theorem upload_with_zero_ttl :
  clamp 0 = 1
  ∧ expiryMinutes (Some (decimal 0)) = 60
  ∧ expiryMinutes (Some (decimal (-1))) = 1
  ∧ expiryMinutes (Some (decimal 1)) = 1
  ∧ (expiry <$> uploads (world (upload_handler_val None 5000 "u"
                                  (raw_of (text_request (Some (decimal 0))))
                                  (mkWorld [] ∅))))
    = [5000 + 60 * 60000]
  ∧ 5000 + 60 * 60000 ≠ 5000 + clamp 0 * 60000.
Proof. vm_compute. repeat split; discriminate. Qed.

(** C7 (code defect): a create request that carries neither text nor file
    because it has no body at all is not answered ValidationError: the
    destructuring of [req.body], which is [undefined], throws before the test
    for a payload, and the request is answered 500 by the error page.  No row
    is written and the world is as it was. *)
Theorem upload_without_body_throws
    (env_API_KEY env_BASE_URL : option string) (io_fault : string → bool)
    (now : Z) (uuid : string) (raw : RawRequest) (w : World) :
  raw_body raw = None →
  raw_file raw = None →
  let res := upload_handler_val env_BASE_URL now uuid raw w in
  response res = mkResponse 500 ErrorPage
  ∧ error_of (response res) ≠ Some ValidationError
  ∧ world res = w
  ∧ unlinks res = []
  ∧ (authenticate env_API_KEY raw = true →
       route env_API_KEY env_BASE_URL io_fault Upload now uuid raw w = res).
Proof.
  intros Hb Hf res. subst res. unfold route, guard, upload_handler_val.
  rewrite Hb, Hf. simpl. repeat split; try done. by intros ->.
Qed.

(** A POST with the right key in the header and nothing else. *)
Lemma upload_without_body_throws_witness :
  raw_body (mkRaw (Some "default-insecure-key") VUndefined VUndefined "" None None) = None
  ∧ response (route None None no_fault Upload 7 "u"
                (mkRaw (Some "default-insecure-key") VUndefined VUndefined "" None None)
                boundary_world)
    = mkResponse 500 ErrorPage.
Proof.
  split; [reflexivity|].
  destruct (upload_without_body_throws None None no_fault 7 "u"
              (mkRaw (Some "default-insecure-key") VUndefined VUndefined "" None None)
              boundary_world eq_refl eq_refl) as (Hres & _ & _ & _ & Hroute).
  rewrite Hroute; [exact Hres|reflexivity].
Defined.

(** C8 (code defect): a username field sent more than once reaches the
    handler as an array, which is not truncated: with at most 50 elements it
    is stored as the text "[object Object]", and with more than 50 the call of
    [substring], which an array does not have, throws and the upload is
    answered 500 without storing anything. *)
Theorem upload_repeated_username
    (env_BASE_URL : option string) (now : Z) (uuid : string)
    (raw : RawRequest) (b : RawBody) (l : list string) (w : World) :
  raw_body raw = Some b →
  rb_username b = repeated l →
  is_Some (raw_file raw) ∨ Val.truthy (rb_text b) = true →
  is_Some (Val.to_string (rb_expiry b)) →
  Db.get uuid (uploads w) = None →
  let res := upload_handler_val env_BASE_URL now uuid raw w in
  ((length l ≤ 50)%nat →
     status (response res) = 200
     ∧ ∃ row, uploads (world res) = uploads w ++ [row]
              ∧ id row = uuid ∧ username row = "[object Object]")
  ∧ ((50 < length l)%nat →
     response res = mkResponse 500 ErrorPage ∧ world res = w).
Proof.
  intros Hb Hu Hp [s Hs] Hfresh res.
  assert (Hname : uploaderName_val (rb_username b)
            = if bool_decide (50 < length l)%nat then None else Some "[object Object]").
  { rewrite Hu. unfold uploaderName_val, repeated, Val.or. simpl. by case_bool_decide. }
  assert (Hm : is_Some (expiryMinutes_val (rb_expiry b))).
  { unfold expiryMinutes_val. rewrite Hs. by eexists. }
  destruct Hm as [m Hm].
  destruct (upload_handler_val_cases env_BASE_URL now uuid raw w)
    as [(Hnone & _)|[(b' & Hb' & Hf & Ht & _)|[(b' & Hb' & _ & Hrow & Hres)
       |[(b' & r & _ & _ & _ & Hg & _)|(b' & r & Hb' & _ & Hrow & _ & Hres)]]]].
  - congruence.
  - rewrite Hb in Hb'. simplify_eq. rewrite Hf, Ht in Hp. destruct Hp as [[? ?]|?]; done.
  - rewrite Hb in Hb'. simplify_eq. unfold upload_row_val in Hrow.
    rewrite Hm, Hname in Hrow. case_bool_decide as Hlen; [|done].
    split; [lia|]. intros _. subst res. by rewrite Hres.
  - rewrite Hfresh in Hg. by destruct Hg.
  - rewrite Hb in Hb'. simplify_eq. unfold upload_row_val in Hrow.
    rewrite Hm, Hname in Hrow. case_bool_decide as Hlen; [done|].
    split; [|lia]. intros _. subst res. rewrite Hres. split; [done|].
    exists r. simplify_eq. done.
Qed.

(** The text "hi" is uploaded with the username sent as "ann" and as "bob",
    and with the username sent 51 times. *)
Lemma upload_repeated_username_witness :
  (username <$> uploads (world (upload_handler_val None 5000 "u"
      (mkRaw None VUndefined VUndefined ""
         (Some (mkBody (VString "hi") VUndefined (repeated ["ann"; "bob"]))) None)
      (mkWorld [] ∅)))) = ["[object Object]"]
  ∧ response (upload_handler_val None 5000 "u"
      (mkRaw None VUndefined VUndefined ""
         (Some (mkBody (VString "hi") VUndefined (repeated (replicate 51 "ann")))) None)
      (mkWorld [] ∅)) = mkResponse 500 ErrorPage.
Proof.
  split.
  - destruct (upload_repeated_username None 5000 "u"
      (mkRaw None VUndefined VUndefined ""
         (Some (mkBody (VString "hi") VUndefined (repeated ["ann"; "bob"]))) None)
      _ ["ann"; "bob"] (mkWorld [] ∅) eq_refl eq_refl) as [Hshort _].
    + right. reflexivity.
    + by eexists.
    + reflexivity.
    + destruct Hshort as (_ & row & Heq & _ & Hname); [simpl; lia|].
      rewrite Heq. simpl. by rewrite Hname.
  - destruct (upload_repeated_username None 5000 "u"
      (mkRaw None VUndefined VUndefined ""
         (Some (mkBody (VString "hi") VUndefined (repeated (replicate 51 "ann")))) None)
      _ (replicate 51 "ann") (mkWorld [] ∅) eq_refl eq_refl) as [_ Hlong].
    + right. reflexivity.
    + by eexists.
    + reflexivity.
    + apply Hlong. rewrite length_replicate. lia.
Defined.

(** X4: the cookie the catch-all route sets is named [auth_token] and carries
    the key.  When the key does not start with "j:", cookie-parser gives the
    returned cookie back as the key itself, and a request that returns it
    with no key in the header or the query is authenticated and answered
    Unauthorized by no route. *)
Theorem frontend_cookie_authenticates
    (env_API_KEY env_BASE_URL : option string) (io_fault : string → bool)
    (JSON_parse : string → option JsVal)
    (req_path data : string) (raw : RawRequest) :
  String.prefix "/api" req_path = false →
  String.prefix "j:" (API_KEY env_API_KEY) = false →
  Val.truthy (Val.of_field (raw_header raw)) = false →
  Val.truthy (raw_query raw) = false →
  Some (raw_cookie raw)
  = (λ c, JSONCookie JSON_parse (cookie_value c))
      <$> page_cookie (frontend_handler env_API_KEY req_path (IndexRead data)) →
  (cookie_name <$> page_cookie (frontend_handler env_API_KEY req_path (IndexRead data)))
  = Some "auth_token"
  ∧ raw_cookie raw = VString (API_KEY env_API_KEY)
  ∧ authenticate env_API_KEY raw = true
  ∧ ∀ rt now uuid w,
      error_of (response (route env_API_KEY env_BASE_URL io_fault rt now uuid raw w))
      ≠ Some Unauthorized.
Proof.
  unfold frontend_handler. intros -> Hj Hh Hq Hc. simpl in Hc.
  unfold JSONCookie in Hc. rewrite Hj in Hc. injection Hc as Hc.
  assert (Hauth : authenticate env_API_KEY raw = true).
  { unfold authenticate, Val.or. rewrite Hh, Hq, Hc. simpl.
    rewrite (bool_decide_eq_false_2 _ (API_KEY_not_empty env_API_KEY)). simpl.
    by rewrite bool_decide_eq_true_2. }
  split; [done|]. split; [done|]. split; [done|].
  intros rt now uuid w. unfold route, guard. rewrite Hauth.
  pose proof (handlers_never_unauthorized env_BASE_URL io_fault now uuid
                (item_request (raw_param_id raw)) w) as (_ & ? & ? & ? & ?).
  destruct rt; try done.
  apply upload_handler_val_frame.
Qed.

(** The page "/" is loaded and the list is asked for with the cookie, the key
    being "s3cret". *)
Lemma frontend_cookie_authenticates_witness :
  String.prefix "/api" "/" = false
  ∧ String.prefix "j:" (API_KEY (Some "s3cret")) = false
  ∧ authenticate (Some "s3cret")
      (mkRaw None VUndefined (JSONCookie (λ _, None) "s3cret") "" None None) = true.
Proof.
  split; [reflexivity|]. split; [reflexivity|].
  apply (frontend_cookie_authenticates (Some "s3cret") None no_fault (λ _, None)
           "/" "<html>"
           (mkRaw None VUndefined (JSONCookie (λ _, None) "s3cret") "" None None));
    reflexivity.
Defined.

(** With the key "j:123" the returned cookie is read as the number 123, and
    the request that returns it is refused. *)
Example json_cookie_key_refused :
  let number_123 := VOther (mkObserved true (Some "123") (Some false) "123") in
  let JSON_parse := λ s : string,
    if bool_decide (s = "123") then Some number_123 else None in
  JSONCookie JSON_parse (API_KEY (Some "j:123")) = number_123
  ∧ authenticate (Some "j:123")
      (mkRaw None VUndefined (JSONCookie JSON_parse (API_KEY (Some "j:123"))) ""
         None None) = false.
Proof. split; reflexivity. Qed.

(** X5: the upload handler, on every request, is answered by the error page
    with 500 exactly when the body is [undefined] or the request has a payload
    and building the row throws (the conversion of the expiry to a string, the
    length test of the username, or [substring] on a username that is not a
    string and longer than 50); with 400 exactly when the body is there and
    carries neither a file nor a truthy text; with 500 "Database error"
    exactly when the row is built and the id is taken; and with 200 exactly
    when the row is built and the id is free.  Only then does the world
    change: that row is appended and the disk is untouched.  Building the row
    never throws when the expiry and the username are strings or absent. *)
Theorem upload_handler_val_outcome
    (env_BASE_URL : option string) (now : Z) (uuid : string)
    (raw : RawRequest) (w : World) :
  let res := upload_handler_val env_BASE_URL now uuid raw w in
  let payload b := is_Some (raw_file raw) ∨ Val.truthy (rb_text b) = true in
  let row b := upload_row_val now uuid (raw_file raw) b in
  (response res = mkResponse 500 ErrorPage ↔
     raw_body raw = None ∨ ∃ b, raw_body raw = Some b ∧ payload b ∧ row b = None)
  ∧ (response res = mkResponse 400 (JsonError "No file or text provided") ↔
     ∃ b, raw_body raw = Some b ∧ raw_file raw = None ∧ Val.truthy (rb_text b) = false)
  ∧ (response res = mkResponse 500 (JsonError "Database error") ↔
     ∃ b, raw_body raw = Some b ∧ payload b ∧ is_Some (row b)
          ∧ is_Some (Db.get uuid (uploads w)))
  ∧ (status (response res) = 200 ↔
     ∃ b, raw_body raw = Some b ∧ payload b ∧ is_Some (row b)
          ∧ Db.get uuid (uploads w) = None)
  ∧ (status (response res) ≠ 200 → world res = w)
  ∧ (status (response res) = 200 →
     ∃ b r, raw_body raw = Some b ∧ row b = Some r
            ∧ world res = mkWorld (uploads w ++ [r]) (disk w)
            ∧ body (response res)
              = JsonUploaded uuid
                  (Js.or_str env_BASE_URL "http://localhost:3000"
                     +:+ "/api/download/" +:+ uuid) (expiry r))
  ∧ unlinks res = []
  ∧ (∀ b, row b = None ↔
       Val.to_string (rb_expiry b) = None ∨ uploaderName_val (rb_username b) = None)
  ∧ (∀ b e u, rb_expiry b = Val.of_field e → rb_username b = Val.of_field u →
       is_Some (row b)).
Proof.
  intros res payload row. subst res payload row.
  assert (Hthrows : ∀ b, upload_row_val now uuid (raw_file raw) b = None ↔
            Val.to_string (rb_expiry b) = None
            ∨ uploaderName_val (rb_username b) = None).
  { intros b. unfold upload_row_val, expiryMinutes_val.
    destruct (Val.to_string (rb_expiry b)); [|by split; [left|]].
    destruct (uploaderName_val (rb_username b)); [|by split; [right|]].
    split; [done|]. by intros [?|?]. }
  assert (Hfields : ∀ b e u, rb_expiry b = Val.of_field e →
            rb_username b = Val.of_field u →
            is_Some (upload_row_val now uuid (raw_file raw) b)).
  { intros b e u He Hu. unfold upload_row_val.
    rewrite He, Hu, expiryMinutes_val_field, uploaderName_val_field. by eexists. }
  assert (Hrest : ∀ (P : Prop), (P ∧ True) → P
            ∧ [] = @nil string
            ∧ (∀ b, upload_row_val now uuid (raw_file raw) b = None ↔
                 Val.to_string (rb_expiry b) = None
                 ∨ uploaderName_val (rb_username b) = None)
            ∧ (∀ b e u, rb_expiry b = Val.of_field e →
                 rb_username b = Val.of_field u →
                 is_Some (upload_row_val now uuid (raw_file raw) b))).
  { intros P [HP _]. by repeat (split; [done|]). }
  destruct (upload_handler_val_cases env_BASE_URL now uuid raw w)
    as [(Hnone & ->)|[(b & Hb & Hf & Ht & ->)|[(b & Hb & Hp & Hrow & ->)
       |[(b & r & Hb & Hp & Hrow & Hg & ->)|(b & r & Hb & Hp & Hrow & Hg & ->)]]]];
    simpl.
  - split; [split; [by left|done]|].
    split; [split; [done|intros (b & ? & _); congruence]|].
    split; [split; [done|intros (b & ? & _); congruence]|].
    split; [split; [done|intros (b & ? & _); congruence]|].
    split; [done|]. apply Hrest. split; [|done]. intros [=].
  - split; [split; [done|]|].
    { intros [?|(b' & Hb' & [[? ?]|?] & _)]; congruence. }
    split; [split; [by eauto|done]|].
    split; [split; [done|]|].
    { intros (b' & Hb' & [[? ?]|?] & _); congruence. }
    split; [split; [done|]|].
    { intros (b' & Hb' & [[? ?]|?] & _); congruence. }
    split; [done|]. apply Hrest. split; [|done]. intros [=].
  - split; [split; [right; by eauto|done]|].
    split; [split; [done|]|].
    { intros (b' & Hb' & Hf & Ht). simplify_eq. rewrite Hf, Ht in Hp.
      destruct Hp as [[? ?]|?]; done. }
    split; [split; [done|]|].
    { intros (b' & Hb' & _ & [? Hsome] & _). simplify_eq. }
    split; [split; [done|]|].
    { intros (b' & Hb' & _ & [? Hsome] & _). simplify_eq. }
    split; [done|]. apply Hrest. split; [|done]. intros [=].
  - split; [split; [done|]|].
    { intros [?|(b' & Hb' & _ & Hn)]; simplify_eq. }
    split; [split; [done|]|].
    { intros (b' & Hb' & Hf & Ht). simplify_eq. rewrite Hf, Ht in Hp.
      destruct Hp as [[? ?]|?]; done. }
    split; [split; [intros _; exists b; by eauto|done]|].
    split; [split; [done|]|].
    { intros (b' & Hb' & _ & _ & Hn). rewrite Hn in Hg. by destruct Hg. }
    split; [done|]. apply Hrest. split; [|done]. intros [=].
  - split; [split; [done|]|].
    { intros [?|(b' & Hb' & _ & Hn)]; simplify_eq. }
    split; [split; [done|]|].
    { intros (b' & Hb' & Hf & Ht). simplify_eq. rewrite Hf, Ht in Hp.
      destruct Hp as [[? ?]|?]; done. }
    split; [split; [done|]|].
    { intros (b' & Hb' & _ & _ & [? Hn]). congruence. }
    split; [split; [intros _; exists b; by eauto|done]|].
    split; [done|]. apply Hrest. split; [|done].
    intros _. exists b, r. by eauto.
Qed.

Lemma multer_frame (file : option UploadedFile) (w : World) :
  uploads (multer file w) = uploads w
  ∧ ∀ p, p ∈ disk (multer file w) ↔ p ∈ disk w ∨ (path <$> file) = Some p.
Proof.
  destruct file as [f|]; simpl.
  - split; [done|]. intros p. rewrite elem_of_union, elem_of_singleton.
    split; intros [?|?]; auto; [right; by subst|left; by simplify_eq].
  - split; [done|]. intros p. split; [by left|]. by intros [?|?].
Qed.

(** X9: with all the middleware, no request rewrites or reorders stored rows:
    the table it leaves is the old one with rows taken out, or, for an upload,
    the old one with one new row of the given id at its end.  The only blob a
    request can add to the disk is the file of an upload request, which multer
    writes before the request is authenticated: it is on disk afterwards even
    when the request is refused.  List and download change nothing. *)
Theorem route_never_rewrites
    (env_API_KEY env_BASE_URL : option string) (io_fault : string → bool)
    (rt : Route) (now : Z) (uuid : string) (raw : RawRequest) (w : World) :
  let res := route env_API_KEY env_BASE_URL io_fault rt now uuid raw w in
  (uploads (world res) `sublist_of` uploads w
   ∨ (rt = Upload ∧ ∃ r, uploads (world res) = uploads w ++ [r]
                         ∧ id r = uuid ∧ created_at r = now))
  ∧ (∀ p, p ∈ disk (world res) →
       p ∈ disk w ∨ (rt = Upload ∧ (path <$> raw_file raw) = Some p))
  ∧ (rt = Upload → ∀ f, raw_file raw = Some f → path f ∈ disk (world res))
  ∧ ((rt = List ∨ rt = DownloadItem) → world res = w ∧ unlinks res = []).
Proof.
  intros res. subst res. unfold route, guard.
  destruct (multer_frame (raw_file raw) w) as [Hmt Hmd].
  destruct rt.
  - assert (Hd : ∀ w1, disk (world (if authenticate env_API_KEY raw
                then upload_handler_val env_BASE_URL now uuid raw w1
                else reply 401 (JsonError "Unauthorized: Invalid API Key") w1))
              = disk w1).
    { intros w1. destruct (authenticate env_API_KEY raw); [|done].
      apply upload_handler_val_frame. }
    split; [|split; [|split]].
    + destruct (authenticate env_API_KEY raw); [|left; by rewrite <- Hmt].
      destruct (upload_handler_val_cases env_BASE_URL now uuid raw
                  (multer (raw_file raw) w))
        as [(_ & ->)|[(b & _ & _ & _ & ->)|[(b & _ & _ & _ & ->)
           |[(b & r & _ & _ & _ & _ & ->)|(b & r & _ & _ & Hrow & _ & ->)]]]];
        simpl; try (left; by rewrite Hmt).
      right. split; [done|]. exists r. rewrite Hmt. split; [done|].
      unfold upload_row_val in Hrow. repeat case_match; by simplify_eq.
    + intros p. rewrite Hd. intros [?|?]%Hmd; [by left|right; by split].
    + intros _ f Hf. rewrite Hd. apply Hmd. right. by rewrite Hf.
    + by intros [?|?].
  - assert (Hw : world (if authenticate env_API_KEY raw
                then list_handler now (item_request (raw_param_id raw)) w
                else reply 401 (JsonError "Unauthorized: Invalid API Key") w) = w
               ∧ unlinks (if authenticate env_API_KEY raw
                then list_handler now (item_request (raw_param_id raw)) w
                else reply 401 (JsonError "Unauthorized: Invalid API Key") w) = [])
      by by destruct (authenticate env_API_KEY raw).
    destruct Hw as [-> ->].
    split; [by left|]. split; [intros p ?; by left|]. split; [intros [=]|done].
  - split; [|split; [|split; [intros [=]|by intros [[=]|[=]]]]].
    + left. destruct (authenticate env_API_KEY raw); [|done].
      rewrite delete_handler_table. apply sublist_filter.
    + intros p. destruct (authenticate env_API_KEY raw); [|by left].
      rewrite delete_handler_disk. intros [? _]%unlink_all_elem. by left.
  - assert (Hw : world (download_handler now (item_request (raw_param_id raw)) w) = w
               ∧ unlinks (download_handler now (item_request (raw_param_id raw)) w) = []).
    { unfold download_handler, res_download. by repeat case_match. }
    destruct Hw as [-> ->].
    split; [by left|]. split; [intros p ?; by left|]. split; [intros [=]|done].
  - pose proof (performCleanup_rows io_fault now w) as Hrows.
    pose proof (performCleanup_disk io_fault now w) as Hdisk.
    unfold cleanup_handler.
    destruct (performCleanup io_fault now w) as [w' [bs ls]]. simpl in *.
    split; [|split; [|split; [intros [=]|by intros [[=]|[=]]]]].
    + left. destruct (authenticate env_API_KEY raw); [|done].
      simpl. rewrite Hrows. apply sublist_filter.
    + intros p. destruct (authenticate env_API_KEY raw); [|by left].
      simpl. rewrite Hdisk. intros [? _]%unlink_all_elem. by left.
Qed.

(** An upload of a file with a wrong key: it is refused, the table is as it
    was, and the blob is on disk. *)
Example refused_upload_leaves_blob :
  let raw := mkRaw (Some "wrong") VUndefined VUndefined ""
               (Some (mkBody VUndefined VUndefined VUndefined))
               (Some (mkFile "uploads/u-a.txt" "a.txt" "text/plain")) in
  let res := route None None no_fault Upload 7 "u" raw boundary_world in
  status (response res) = 401
  ∧ uploads (world res) = uploads boundary_world
  ∧ elements (disk (world res)) = ["uploads/k"; "uploads/u-a.txt"].
Proof. vm_compute. repeat split. Qed.

(** X20: for every value of the expiry field, the effective TTL is 60 when
    [parseInt] of the value is [NaN] or 0 and otherwise the parsed integer
    clamped to [1, 10080]; it always lies in that interval, and the row that
    is built expires that many minutes after its creation.  [parseInt] of the
    decimal rendering of an integer is that integer. *)
Theorem expiryMinutes_val_characterised
    (now : Z) (uuid : string) (file : option UploadedFile) (b : RawBody) :
  (expiryMinutes_val (rb_expiry b)
   = (λ s, match Js.parseInt_string s with
           | Some t => if decide (t = 0) then 60 else clamp t
           | None => 60
           end) <$> Val.to_string (rb_expiry b))
  ∧ (∀ m, expiryMinutes_val (rb_expiry b) = Some m → 1 ≤ m ≤ 10080)
  ∧ (∀ r, upload_row_val now uuid file b = Some r →
       created_at r = now
       ∧ ∃ m, expiryMinutes_val (rb_expiry b) = Some m
              ∧ expiry r = created_at r + m * 60000)
  ∧ (∀ t, Js.parseInt_string (decimal t) = Some t).
Proof.
  assert (Hchar : ∀ s, expiryMinutes (Some s)
            = match Js.parseInt_string s with
              | Some t => if decide (t = 0) then 60 else clamp t
              | None => 60
              end) by (intros s; apply (expiryMinutes_parsed (Some s))).
  assert (Hval : ∀ v, expiryMinutes_val v = (λ s, expiryMinutes (Some s)) <$> Val.to_string v).
  { intros v. unfold expiryMinutes_val. by destruct (Val.to_string v). }
  split; [|split; [|split]].
  - rewrite Hval. destruct (Val.to_string (rb_expiry b)); simpl; [|done].
    by rewrite Hchar.
  - intros m. rewrite Hval. destruct (Val.to_string (rb_expiry b)) as [s|]; [|done].
    intros [= <-]. apply expiryMinutes_range.
  - intros r. unfold upload_row_val.
    destruct (expiryMinutes_val (rb_expiry b)) as [m|]; [|done].
    destruct (uploaderName_val (rb_username b)); [|done].
    intros [= <-]. simpl. split; [done|]. exists m. split; [done|lia].
  - apply parseInt_decimal.
Qed.



(** ** The store under the routes with their middleware *)

Lemma route_is_upload (rt : Route) : rt = Upload ∨ rt ≠ Upload.
Proof. destruct rt; by (left + right). Qed.

Lemma cleanup_handler_world io_fault now req w :
  world (cleanup_handler io_fault now req w) = (performCleanup io_fault now w).1.
Proof.
  unfold cleanup_handler. by destruct (performCleanup io_fault now w) as [w' [bs ls]].
Qed.

(** The world an upload leaves: the one multer left, or that one with the row
    built from the request appended under a fresh id. *)
Lemma route_upload_world env_API_KEY env_BASE_URL io_fault now uuid raw w :
  world (route env_API_KEY env_BASE_URL io_fault Upload now uuid raw w)
  = multer (raw_file raw) w
  ∨ (∃ b r, raw_body raw = Some b
       ∧ upload_row_val now uuid (raw_file raw) b = Some r
       ∧ Db.get uuid (uploads w) = None
       ∧ world (route env_API_KEY env_BASE_URL io_fault Upload now uuid raw w)
         = mkWorld (uploads w ++ [r]) (disk (multer (raw_file raw) w))).
Proof.
  unfold route, guard.
  destruct (multer_frame (raw_file raw) w) as [Hmt _].
  destruct (authenticate env_API_KEY raw); [|by left].
  destruct (upload_handler_val_cases env_BASE_URL now uuid raw (multer (raw_file raw) w))
    as [(_ & ->)|[(b & _ & _ & _ & ->)|[(b & _ & _ & _ & ->)
       |[(b & r & _ & _ & _ & _ & ->)|(b & r & Hb & _ & Hrow & Hg & ->)]]]];
    try by left.
  right. exists b, r. rewrite Hmt in *. done.
Qed.

(** The world another route leaves: the old one, the one of the delete, or
    the one of the cleanup. *)
Lemma route_other_world env_API_KEY env_BASE_URL io_fault rt now uuid raw w :
  rt ≠ Upload →
  world (route env_API_KEY env_BASE_URL io_fault rt now uuid raw w) = w
  ∨ (rt = Delete ∧ authenticate env_API_KEY raw = true
     ∧ world (route env_API_KEY env_BASE_URL io_fault rt now uuid raw w)
       = world (delete_handler io_fault (item_request (raw_param_id raw)) w))
  ∨ (rt = Cleanup ∧ authenticate env_API_KEY raw = true
     ∧ world (route env_API_KEY env_BASE_URL io_fault rt now uuid raw w)
       = (performCleanup io_fault now w).1).
Proof.
  intros Hrt. unfold route, guard. destruct rt; [done|..].
  - left. by destruct (authenticate env_API_KEY raw).
  - destruct (authenticate env_API_KEY raw); [right; left; done|by left].
  - left. unfold download_handler, res_download. by repeat case_match.
  - destruct (authenticate env_API_KEY raw); [|by left].
    right; right. by rewrite cleanup_handler_world.
Qed.

Lemma upload_row_val_shape now uuid file b r :
  upload_row_val now uuid file b = Some r →
  id r = uuid ∧ created_at r = now
  ∧ blobs [r] = match file with Some f => [path f] | None => [] end.
Proof.
  unfold upload_row_val. intros Hrow.
  destruct (expiryMinutes_val (rb_expiry b)); [|done].
  destruct (uploaderName_val (rb_username b)); [|done].
  injection Hrow as <-. split; [done|]. split; [done|].
  unfold blobs. rewrite filter_cons, filter_nil. simpl. by destruct file.
Qed.

(** X22: with the middleware in place, every route keeps [id] a key of the
    table: if no two stored rows share an id, neither do two rows stored
    after the request; an upload under an id already stored leaves the world
    as multer left it, with the table as it was. *)
Theorem route_keeps_id_unique
    (env_API_KEY env_BASE_URL : option string) (io_fault : string → bool)
    (rt : Route) (now : Z) (uuid : string) (raw : RawRequest) (w : World) :
  NoDup (id <$> uploads w) →
  NoDup (id <$> uploads (world (route env_API_KEY env_BASE_URL io_fault rt now uuid raw w)))
  ∧ (rt = Upload → uuid ∈ id <$> uploads w →
       world (route env_API_KEY env_BASE_URL io_fault rt now uuid raw w)
       = multer (raw_file raw) w
       ∧ uploads (world (route env_API_KEY env_BASE_URL io_fault rt now uuid raw w))
         = uploads w).
Proof.
  intros Hw. split.
  - destruct (route_is_upload rt) as [->|Hrt].
    + destruct (route_upload_world env_API_KEY env_BASE_URL io_fault now uuid raw w)
        as [->|(b & r & _ & Hrow & Hfresh & ->)].
      * by rewrite (proj1 (multer_frame _ _)).
      * apply upload_row_val_shape in Hrow as (Hid & _). simpl.
        rewrite fmap_app. apply NoDup_app. split; [done|]. split; [|apply NoDup_singleton].
        intros i (a & -> & Ha)%list_elem_of_fmap Hin.
        apply list_elem_of_singleton in Hin. simpl in Hin.
        rewrite get_none in Hfresh. apply (Hfresh a Ha). congruence.
    + destruct (route_other_world env_API_KEY env_BASE_URL io_fault rt now uuid raw w Hrt)
        as [->|[(_ & _ & ->)|(_ & _ & ->)]]; [done|..].
      * rewrite delete_handler_table. eapply sublist_NoDup; [exact Hw|].
        apply fmap_sublist, sublist_filter.
      * rewrite performCleanup_rows. eapply sublist_NoDup; [exact Hw|].
        apply fmap_sublist, sublist_filter.
  - intros -> (a & -> & Ha)%list_elem_of_fmap.
    destruct (route_upload_world env_API_KEY env_BASE_URL io_fault now (id a) raw w)
      as [->|(b & r & _ & _ & Hfresh & _)].
    + split; [done|]. apply multer_frame.
    + rewrite get_none in Hfresh. by destruct (Hfresh a Ha).
Qed.

(** A file is uploaded with the right key under the id "k", which the store
    holds: the table is as it was and the blob is on disk. *)
Lemma route_keeps_id_unique_witness :
  NoDup (id <$> uploads boundary_world)
  ∧ uploads (world (route None None no_fault Upload 0 "k"
       (mkRaw (Some "default-insecure-key") VUndefined VUndefined ""
          (Some (mkBody VUndefined VUndefined VUndefined))
          (Some (mkFile "uploads/u-a.txt" "a.txt" "text/plain")))
       boundary_world)) = uploads boundary_world
  ∧ elements (disk (world (route None None no_fault Upload 0 "k"
       (mkRaw (Some "default-insecure-key") VUndefined VUndefined ""
          (Some (mkBody VUndefined VUndefined VUndefined))
          (Some (mkFile "uploads/u-a.txt" "a.txt" "text/plain")))
       boundary_world))) = ["uploads/k"; "uploads/u-a.txt"].
Proof.
  assert (H0 : NoDup (id <$> uploads boundary_world)).
  { simpl. apply NoDup_singleton. }
  split; [exact H0|].
  destruct (proj2 (route_keeps_id_unique None None no_fault Upload 0 "k"
       (mkRaw (Some "default-insecure-key") VUndefined VUndefined ""
          (Some (mkBody VUndefined VUndefined VUndefined))
          (Some (mkFile "uploads/u-a.txt" "a.txt" "text/plain")))
       boundary_world H0) eq_refl) as [Hworld Htable]; [simpl; left|].
  split; [exact Htable|]. rewrite Hworld. reflexivity.
Defined.

(** X23: with the middleware in place, a row that has not expired at the time
    of a request stays in the table whatever the request is, unless the
    request is an authenticated delete of the id of that row. *)
Theorem route_keeps_live_row
    (env_API_KEY env_BASE_URL : option string) (io_fault : string → bool)
    (rt : Route) (now : Z) (uuid : string) (raw : RawRequest) (w : World) (r : Row) :
  r ∈ uploads w →
  now ≤ expiry r →
  ¬ (rt = Delete ∧ raw_param_id raw = id r ∧ authenticate env_API_KEY raw = true) →
  r ∈ uploads (world (route env_API_KEY env_BASE_URL io_fault rt now uuid raw w)).
Proof.
  intros Hr Hlive Hnot.
  destruct (route_is_upload rt) as [->|Hrt].
  - destruct (route_upload_world env_API_KEY env_BASE_URL io_fault now uuid raw w)
      as [->|(b & r' & _ & _ & _ & ->)].
    + by rewrite (proj1 (multer_frame _ _)).
    + simpl. apply elem_of_app. by left.
  - destruct (route_other_world env_API_KEY env_BASE_URL io_fault rt now uuid raw w Hrt)
      as [->|[(Hd & Hauth & ->)|(_ & _ & ->)]]; [done|..].
    + rewrite delete_handler_table. apply delete_rows. split; [done|].
      simpl. intros Hid. by apply Hnot.
    + rewrite performCleanup_rows. apply delete_rows. split; [done|lia].
Qed.

(** The item "k" and a delete of it that presents a wrong key. *)
Lemma route_keeps_live_row_witness :
  boundary_row ∈ uploads boundary_world
  ∧ 7 ≤ expiry boundary_row
  ∧ boundary_row ∈
      uploads (world (route None None no_fault Delete 7 "u"
         (mkRaw (Some "wrong") VUndefined VUndefined "k" None None) boundary_world)).
Proof.
  assert (Hin : boundary_row ∈ uploads boundary_world) by (simpl; left).
  assert (Hlive : 7 ≤ expiry boundary_row) by (simpl; lia).
  split; [exact Hin|]. split; [exact Hlive|].
  apply route_keeps_live_row; [exact Hin|exact Hlive|].
  intros (_ & _ & Hauth). vm_compute in Hauth. discriminate.
Defined.

(** X24: with the middleware in place, every route keeps the blobs intact: if
    no two file rows share a blob and every blob a file row refers to is on
    disk, the same holds after the request, whether the unlinks succeed or
    fail, provided no stored row refers yet to the blob of an uploaded file;
    that blob is on disk, where multer put it. *)
Theorem route_keeps_blobs_intact
    (env_API_KEY env_BASE_URL : option string) (io_fault : string → bool)
    (rt : Route) (now : Z) (uuid : string) (raw : RawRequest) (w : World) :
  blobs_intact w →
  (rt = Upload → ∀ f, raw_file raw = Some f → path f ∉ blobs (uploads w)) →
  blobs_intact (world (route env_API_KEY env_BASE_URL io_fault rt now uuid raw w))
  ∧ (rt = Upload → ∀ f, raw_file raw = Some f →
       path f ∈ disk (world (route env_API_KEY env_BASE_URL io_fault rt now uuid raw w))).
Proof.
  intros Hw Hnew.
  destruct (multer_frame (raw_file raw) w) as [Hmt Hmd].
  assert (Hm : blobs_intact (multer (raw_file raw) w)).
  { destruct Hw as [Hnd Hdisk]. unfold blobs_intact. rewrite Hmt. split; [done|].
    intros p Hp. apply Hmd. left. by apply Hdisk. }
  destruct (route_is_upload rt) as [->|Hrt].
  - destruct (route_upload_world env_API_KEY env_BASE_URL io_fault now uuid raw w)
      as [->|(b & r & _ & Hrow & _ & ->)].
    + split; [done|]. intros _ f Hf. apply Hmd. right. by rewrite Hf.
    + apply upload_row_val_shape in Hrow as (_ & _ & Hblobs). split.
      * destruct Hm as [Hnd Hdisk]. rewrite Hmt in Hnd, Hdisk.
        unfold blobs_intact. simpl. rewrite blobs_app, Hblobs.
        destruct (raw_file raw) as [f|] eqn:Hf.
        -- split.
           ++ apply NoDup_app. split; [done|]. split; [|apply NoDup_singleton].
              intros p Hp Heq%list_elem_of_singleton. subst p.
              exact (Hnew eq_refl f eq_refl Hp).
           ++ intros p [?|Heq%list_elem_of_singleton]%elem_of_app; [auto|].
              subst p. simpl. apply elem_of_union. left. by apply elem_of_singleton.
        -- rewrite app_nil_r. by split.
      * intros _ f Hf. simpl. apply Hmd. right. by rewrite Hf.
  - split; [|done].
    destruct (route_other_world env_API_KEY env_BASE_URL io_fault rt now uuid raw w Hrt)
      as [->|[(_ & _ & ->)|(_ & _ & ->)]]; [done|..].
    + apply (removal_keeps_blobs_intact io_fault
               (λ r, id r = param_id (item_request (raw_param_id raw))) w _
               (unlinks (delete_handler io_fault (item_request (raw_param_id raw)) w)));
        [done|..].
      * apply delete_handler_table.
      * apply delete_handler_disk.
      * unfold delete_handler. intros p.
        destruct (Db.get (param_id (item_request (raw_param_id raw))) (uploads w))
          as [row|] eqn:Hget; simpl.
        -- apply get_some in Hget as [Hin Hid].
           case_bool_decide; [|by intros ?%elem_of_nil].
           intros ->%list_elem_of_singleton. by exists row.
        -- by intros ?%elem_of_nil.
    + apply (removal_keeps_blobs_intact io_fault (λ r, expiry r < now) w _
               (performCleanup io_fault now w).2.1); [done|..].
      * apply performCleanup_rows.
      * apply performCleanup_disk.
      * intros p. apply performCleanup_blob_elem.
Qed.

(** A file is uploaded with the right key under the fresh id "u". *)
Lemma route_keeps_blobs_intact_witness :
  blobs_intact boundary_world
  ∧ blobs_intact
      (world (route None None no_fault Upload 7 "u"
         (mkRaw (Some "default-insecure-key") VUndefined VUndefined ""
            (Some (mkBody VUndefined VUndefined VUndefined))
            (Some (mkFile "uploads/u-a.txt" "a.txt" "text/plain")))
         boundary_world))
  ∧ (id <$> uploads (world (route None None no_fault Upload 7 "u"
         (mkRaw (Some "default-insecure-key") VUndefined VUndefined ""
            (Some (mkBody VUndefined VUndefined VUndefined))
            (Some (mkFile "uploads/u-a.txt" "a.txt" "text/plain")))
         boundary_world))) = ["k"; "u"].
Proof.
  assert (H0 : blobs_intact boundary_world).
  { split; [apply NoDup_singleton|].
    intros p ->%list_elem_of_singleton. vm_compute. reflexivity. }
  split; [exact H0|]. split; [|reflexivity].
  apply route_keeps_blobs_intact; [exact H0|].
  intros _ f [= <-]. simpl. intros Hin%list_elem_of_singleton. discriminate.
Defined.
